(** * TelemetryContext (applicationinsights-properties-js)

    A shallow embedding of [TelemetryContext.ts]: the legacy Request-Id
    parser, the trace-parent discovery run by the constructor, the session-id
    accessor, the nine [apply*Context] operations and [cleanUp].

    JavaScript strings are sequences of code units; they are embedded as
    [string] (code units 0..255).  Objects used as property bags are finite
    maps from property names to values ([gmap string _]).  The operations
    mutate the item they are given; they are embedded as functions from the
    item before the call to the item after it.  No operation writes into an
    object it has stored by reference (the [os] and [web] records are stored
    whole and never written into), so the content of the item is all there
    is to track. *)

From Stdlib Require Import Ascii String.
From stdpp Require Import base option list strings gmap fin_maps.

Local Open Scope string_scope.

(** ** JavaScript string primitives *)

Module JsString.

(** The code units below 256 that the [\s] class and [String.prototype.trim]
    treat as white space: TAB, LF, VT, FF, CR, SPACE and NBSP. *)
Definition isWhitespace (c : ascii) : bool :=
  match nat_of_ascii c with
  | 9 | 10 | 11 | 12 | 13 | 32 | 160 => true
  | _ => false
  end.

(** Truthiness of a string value: every string but the empty one. *)
Definition truthy (s : string) : bool :=
  match s with
  | EmptyString => false
  | String _ _ => true
  end.

Fixpoint trimStart (s : string) : string :=
  match s with
  | EmptyString => EmptyString
  | String c s' => if isWhitespace c then trimStart s' else s
  end.

Fixpoint trimEnd (s : string) : string :=
  match s with
  | EmptyString => EmptyString
  | String c s' =>
      match trimEnd s' with
      | EmptyString => if isWhitespace c then EmptyString else String c EmptyString
      | t => String c t
      end
  end.

Fixpoint allChars (p : ascii → bool) (s : string) : bool :=
  match s with
  | EmptyString => true
  | String c s' => p c && allChars p s'
  end.

(** [s.indexOf(c)] for a one-character needle; [None] stands for [-1]. *)
Fixpoint indexOf (s : string) (c : ascii) : option nat :=
  match s with
  | EmptyString => None
  | String d s' => if Ascii.eqb d c then Some 0 else S <$> indexOf s' c
  end.

(** [s.substring(from, to)]: both indices are clamped to the length and
    swapped when [from > to]. *)
Definition substring (s : string) (from to : nat) : string :=
  let a := from `min` String.length s in
  let b := to `min` String.length s in
  String.substring (a `min` b) ((a `max` b) - (a `min` b)) s.

(** [s.substring(from)]. *)
Definition substringFrom (s : string) (from : nat) : string :=
  substring s from (String.length s).

Fixpoint lastChar (s : string) : option ascii :=
  match s with
  | EmptyString => None
  | String c EmptyString => Some c
  | String _ s' => lastChar s'
  end.

End JsString.

(** ** Helpers imported from applicationinsights-core-js *)

(** Modelled from the spec: [strTrim] of the core package is missing from the
    sources at hand; it trims surrounding white space, and leaves a falsy
    value as it is. *)
Definition strTrim (str : string) : string :=
  if JsString.truthy str then JsString.trimEnd (JsString.trimStart str) else str.

(** Modelled from the spec: [strStartsWith] of the core package is missing;
    the parser requires a leading ["|"] with it.  Both arguments have to be
    truthy. *)
Definition strStartsWith (value checkValue : string) : bool :=
  JsString.truthy value && JsString.truthy checkValue && String.prefix checkValue value.

(** Modelled from the spec: [strEndsWith] of the core package is missing; the
    parser strips one optional trailing ["."] with it.  It is only used with a
    one-character [checkValue], which is how it is embedded. *)
Definition strEndsWith (value : string) (checkValue : ascii) : bool :=
  match JsString.lastChar value with
  | Some c => Ascii.eqb c checkValue
  | None => false
  end.

Definition isHexLower (c : ascii) : bool :=
  let n := nat_of_ascii c in
  ((48 <=? n)%nat && (n <=? 57)%nat) || ((97 <=? n)%nat && (n <=? 102)%nat).

Definition INVALID_TRACE_ID : string := "00000000000000000000000000000000".
Definition INVALID_SPAN_ID : string := "0000000000000000".

(** Modelled from the spec: the validators [isValidTraceId] and
    [isValidSpanId] of the core package are missing.  The spec asks for
    exactly 32 (resp. 16) hexadecimal characters, case-sensitive, not all
    zero; the embedding follows the shape of the package's [_isValid]:
    a truthy value of the required length, different from the all-zero
    constant, made of lower-case hexadecimal digits only. *)
Definition _isValid (value : string) (len : nat) (invalidValue : string) : bool :=
  JsString.truthy value
  && (String.length value =? len)%nat
  && negb (String.eqb value invalidValue)
  && JsString.allChars isHexLower value.

Definition isValidTraceId (value : string) : bool := _isValid value 32 INVALID_TRACE_ID.
Definition isValidSpanId (value : string) : bool := _isValid value 16 INVALID_SPAN_ID.

(** Modelled from the spec: [ITraceParent] as the pair the spec names
    [TraceParent]; [createTraceParent] is missing and, called with two ids
    that passed the validators, stores them as they are. *)
Record ITraceParent : Type := createTraceParent {
  traceId : string;
  spanId : string
}.

Global Instance ITraceParent_eq_dec : EqDecision ITraceParent.
Proof. solve_decision. Defined.

(** ** The Request-Id parser *)

(** What [_parseRequestId] can be handed: [undefined] (a missing [content] or
    [description] property), a string, or a sequence of strings. *)
Inductive RequestIdValue : Type :=
  | RidUndefined
  | RidString (s : string)
  | RidArray (l : list string).

(** [if (value)]: [undefined] and the empty string are falsy, every array
    (the empty one too) is truthy. *)
Definition ridTruthy (value : RequestIdValue) : bool :=
  match value with
  | RidUndefined => false
  | RidString s => JsString.truthy s
  | RidArray _ => true
  end.

(** The part of [_parseRequestId] that runs on a string value:
    [if (value && isString(value)) { ... }]. *)
Definition _parseRequestIdString (value : string) : option ITraceParent :=
  if JsString.truthy value then
    let value := strTrim value in
    if strStartsWith value "|" then
      match JsString.indexOf value "." with
      | Some idx =>
          let traceId := JsString.substring value 1 idx in
          let spanId := JsString.substringFrom value (idx + 1) in
          let spanId :=
            if strEndsWith spanId "."
            then JsString.substring spanId 0 (String.length spanId - 1)
            else spanId in
          if isValidTraceId traceId && isValidSpanId spanId
          then Some (createTraceParent traceId spanId)
          else None
      | None => None
      end
    else None
  else None.

Definition _parseRequestId (value : RequestIdValue) : option ITraceParent :=
  if ridTruthy value then
    (* if (isArray(value)) { value = value[0] || ""; } *)
    let value :=
      match value with
      | RidArray l =>
          match l with
          | s :: _ => if JsString.truthy s then RidString s else RidString ""
          | [] => RidString ""
          end
      | v => v
      end in
    match value with
    | RidString s => _parseRequestIdString s
    | _ => None
    end
  else None.

(** ** Values, telemetry items and context providers *)

(** The values a provider attribute or a bucket field can hold.  The fields
    are declared as strings, but nothing enforces it at run time, which is
    why every field write is guarded by [isString]. *)
Inductive Prim : Type :=
  | PUndefined
  | PNull
  | PString (s : string)
  | PNumber (n : Z)
  | PBoolean (b : bool).

Global Instance Prim_eq_dec : EqDecision Prim.
Proof. solve_decision. Defined.

Definition isString (value : Prim) : bool :=
  match value with
  | PString _ => true
  | _ => false
  end.

(** What a key of [ext] can hold: an extension object (a plain object,
    embedded as the finite map of its own keys), or [undefined], which the
    operating-system write stores when the provider is unset. *)
Inductive ExtValue : Type :=
  | ExtUndefined
  | ExtObject (o : gmap string Prim).

Global Instance ExtValue_eq_dec : EqDecision ExtValue.
Proof. solve_decision. Defined.

(** The [tags] bucket: created as [{}] by some operations and as [[]] by
    others; in both cases the tag keys are properties of it. *)
Record Tags : Type := mkTags {
  tagsIsArray : bool;
  tagsProps : gmap string Prim
}.

(** The telemetry item, with the three properties the context reads or
    writes; [None] is a property the item does not have. *)
Record ITelemetryItem : Type := mkItem {
  ext : option (gmap string ExtValue);
  tags : option Tags;
  baseType : option string
}.

Record IApplication : Type := { app_ver : Prim; app_build : Prim }.
Record IDevice : Type :=
  { dev_id : Prim; dev_ip : Prim; dev_model : Prim; dev_deviceClass : Prim }.
Record ILocation : Type := { loc_ip : Prim }.
Record ITelemetryTrace : Type :=
  { traceID : Prim; parentID : Prim; trace_name : Prim }.
Record IUserContext : Type :=
  { user_accountId : Prim; user_id : Prim; user_authenticatedId : Prim }.
Record IInternal : Type :=
  { agentVersion : Prim; sdkVersion : Prim; snippetVer : Prim; sdkSrc : Prim }.
Record ISession : Type := { ses_id : Prim }.
Record _SessionManager : Type := { automaticSession : option ISession }.

(** The public attributes of a [TelemetryContext]; [None] is an attribute
    that was never assigned. *)
Record TelemetryContext : Type := mkContext {
  application : option IApplication;
  device : option IDevice;
  location : option ILocation;
  telemetryTrace : option ITelemetryTrace;
  user : option IUserContext;
  internal : option IInternal;
  session : option ISession;
  sessionManager : option _SessionManager;
  os : option (gmap string Prim);
  web : option (gmap string Prim)
}.

(** ** Constants of applicationinsights-common *)

Definition strExt : string := "ext".
Definition strTags : string := "tags".

(** Modelled from the spec: the [Extensions] and [CtxTagKeys] tables and the
    two [dataType] constants are missing from the sources at hand.  The
    extension names are the six the spec lists; the tag keys and data types
    stand for the entries the spec names. *)
Module Extensions.
Definition UserExt : string := "user".
Definition DeviceExt : string := "device".
Definition TraceExt : string := "trace".
Definition WebExt : string := "web".
Definition AppExt : string := "app".
Definition OSExt : string := "os".
End Extensions.

Module CtxTagKeys.
Definition applicationVersion : string := "ai.application.ver".
Definition applicationBuild : string := "ai.application.build".
Definition internalAgentVersion : string := "ai.internal.agentVersion".
Definition internalSdkVersion : string := "ai.internal.sdkVersion".
Definition internalSnippet : string := "ai.internal.snippet".
Definition internalSdkSrc : string := "ai.internal.sdkSrc".
Definition locationIp : string := "ai.location.ip".
Definition userAccountId : string := "ai.user.accountId".
End CtxTagKeys.

Definition _InternalLogMessage_dataType : string := "MessageData".
Definition PageView_dataType : string := "PageviewData".

(** ** [setValue] and [getSetValue] *)

Definition readProp (target : gmap string Prim) (field : string) : Prim :=
  default PUndefined (target !! field).

Definition readExt (target : gmap string ExtValue) (field : string) : ExtValue :=
  default ExtUndefined (target !! field).

(** Modelled from the spec: [setValue] of the core package is missing.  It
    is the "set if present and of the expected type" guard of the spec:
    [target[field]] is assigned when it differs from [value] and [value]
    passes the check [valChk], when one is given. *)
Definition setValue (target : gmap string Prim) (field : string) (value : Prim)
    (valChk : option (Prim → bool)) : gmap string Prim :=
  let theValue := readProp target field in
  if bool_decide (theValue ≠ value) && from_option (λ chk, chk value) true valChk
  then <[field := value]> target
  else target.

(** [setValue] at a key of [ext], where the value is a whole object and no
    check is passed.  Objects are compared by content here and by identity in
    JavaScript; when two distinct objects have the same content the
    assignment leaves the content of [target] as it is, so both agree. *)
Definition setValueExt (target : gmap string ExtValue) (field : string)
    (value : ExtValue) : gmap string ExtValue :=
  let theValue := readExt target field in
  if bool_decide (theValue ≠ value) then <[field := value]> target else target.

(** Modelled from the spec: [getSetValue] of the core package is missing.
    It is the "get or insert default" of the spec: it returns
    [target[field]], after storing the default ([defValue], or [{}]) there
    when the field is null or undefined.  The caller mutates the returned
    object in place; the embedding takes that mutation as the continuation
    [k] and stores its result back under [field].

    [getSetValue(evt, strExt)]: *)
Definition getSetValue_ext (evt : ITelemetryItem)
    (k : gmap string ExtValue → gmap string ExtValue) : ITelemetryItem :=
  let theValue := default ∅ (ext evt) in
  {| ext := Some (k theValue); tags := tags evt; baseType := baseType evt |}.

(** [getSetValue(evt, strTags, defValue)], where [defIsArray] tells whether
    the default is [[]] or [{}]. *)
Definition getSetValue_tags (evt : ITelemetryItem) (defIsArray : bool)
    (k : gmap string Prim → gmap string Prim) : ITelemetryItem :=
  let theValue := default (mkTags defIsArray ∅) (tags evt) in
  {| ext := ext evt;
     tags := Some (mkTags (tagsIsArray theValue) (k (tagsProps theValue)));
     baseType := baseType evt |}.

(** [getSetValue(target, field, defValue)] on the [ext] mapping. *)
Definition getSetValue_bucket (target : gmap string ExtValue) (field : string)
    (defValue : gmap string Prim)
    (k : gmap string Prim → gmap string Prim) : gmap string ExtValue :=
  let theValue :=
    match target !! field with
    | Some (ExtObject o) => o
    | Some ExtUndefined | None => defValue
    end in
  <[field := ExtObject (k theValue)]> target.

(** ** The session-id accessor and the apply operations *)

Definition getSessionId (_self : TelemetryContext) : Prim :=
  let fromManager :=
    (* (_self.sessionManager || {}).automaticSession *)
    let autoSession := sessionManager _self ≫= automaticSession in
    match autoSession with
    | Some a => if isString (ses_id a) then ses_id a else PNull
    | None => PNull
    end in
  match session _self with
  | Some s => if isString (ses_id s) then ses_id s else fromManager
  | None => fromManager
  end.

(** [getSetValue(evt.ext, Extensions.AppExt)] starts from [evt.ext] itself:
    when the item has no [ext], the object [getSetValue] hands back is
    attached to nothing and the write is lost. *)
Definition applySessionContext (_self : TelemetryContext) (evt : ITelemetryItem) : ITelemetryItem :=
  match ext evt with
  | Some e =>
      {| ext := Some (getSetValue_bucket e Extensions.AppExt ∅ (λ app,
                  setValue app "sesId" (getSessionId _self) (Some isString)));
         tags := tags evt; baseType := baseType evt |}
  | None => evt
  end.

Definition applyOperatingSystemContxt (_self : TelemetryContext) (evt : ITelemetryItem) : ITelemetryItem :=
  match ext evt with
  | Some e =>
      {| ext := Some (setValueExt e Extensions.OSExt
                        (from_option ExtObject ExtUndefined (os _self)));
         tags := tags evt; baseType := baseType evt |}
  | None => evt
  end.

Definition applyApplicationContext (_self : TelemetryContext) (evt : ITelemetryItem) : ITelemetryItem :=
  match application _self with
  | Some application =>
      getSetValue_tags evt false (λ tags,
        let tags := setValue tags CtxTagKeys.applicationVersion (app_ver application) (Some isString) in
        setValue tags CtxTagKeys.applicationBuild (app_build application) (Some isString))
  | None => evt
  end.

Definition applyDeviceContext (_self : TelemetryContext) (evt : ITelemetryItem) : ITelemetryItem :=
  match device _self with
  | Some device =>
      getSetValue_ext evt (λ e,
        getSetValue_bucket e Extensions.DeviceExt ∅ (λ extDevice,
          let extDevice := setValue extDevice "localId" (dev_id device) (Some isString) in
          let extDevice := setValue extDevice "ip" (dev_ip device) (Some isString) in
          let extDevice := setValue extDevice "model" (dev_model device) (Some isString) in
          setValue extDevice "deviceClass" (dev_deviceClass device) (Some isString)))
  | None => evt
  end.

Definition applyInternalContext (_self : TelemetryContext) (evt : ITelemetryItem) : ITelemetryItem :=
  match internal _self with
  | Some internal =>
      getSetValue_tags evt false (λ tags,
        let tags := setValue tags CtxTagKeys.internalAgentVersion (agentVersion internal) (Some isString) in
        let tags := setValue tags CtxTagKeys.internalSdkVersion (sdkVersion internal) (Some isString) in
        if bool_decide (baseType evt = Some _InternalLogMessage_dataType)
           || bool_decide (baseType evt = Some PageView_dataType)
        then
          let tags := setValue tags CtxTagKeys.internalSnippet (snippetVer internal) (Some isString) in
          setValue tags CtxTagKeys.internalSdkSrc (sdkSrc internal) (Some isString)
        else tags)
  | None => evt
  end.

Definition applyLocationContext (_self : TelemetryContext) (evt : ITelemetryItem) : ITelemetryItem :=
  match location _self with
  | Some location =>
      getSetValue_tags evt true (λ tags,
        setValue tags CtxTagKeys.locationIp (loc_ip location) (Some isString))
  | None => evt
  end.

(** The default of the trace bucket,
    [{ traceID: undefined, parentID: undefined }]. *)
Definition emptyTraceExt : gmap string Prim :=
  <["traceID" := PUndefined]> (<["parentID" := PUndefined]> ∅).

Definition applyOperationContext (_self : TelemetryContext) (evt : ITelemetryItem) : ITelemetryItem :=
  match telemetryTrace _self with
  | Some telemetryTrace =>
      getSetValue_ext evt (λ e,
        getSetValue_bucket e Extensions.TraceExt emptyTraceExt (λ extTrace,
          let extTrace := setValue extTrace "traceID" (traceID telemetryTrace) (Some isString) in
          let extTrace := setValue extTrace "name" (trace_name telemetryTrace) (Some isString) in
          setValue extTrace "parentID" (parentID telemetryTrace) (Some isString)))
  | None => evt
  end.

Definition applyWebContext (_self : TelemetryContext) (evt : ITelemetryItem) : ITelemetryItem :=
  match web _self with
  | Some web =>
      getSetValue_ext evt (λ e, setValueExt e Extensions.WebExt (ExtObject web))
  | None => evt
  end.

Definition applyUserContext (_self : TelemetryContext) (evt : ITelemetryItem) : ITelemetryItem :=
  match user _self with
  | Some user =>
      let evt :=
        getSetValue_tags evt true (λ tags,
          setValue tags CtxTagKeys.userAccountId (user_accountId user) (Some isString)) in
      getSetValue_ext evt (λ e,
        getSetValue_bucket e Extensions.UserExt ∅ (λ extUser,
          let extUser := setValue extUser "id" (user_id user) (Some isString) in
          setValue extUser "authId" (user_authenticatedId user) (Some isString)))
  | None => evt
  end.

(** The nine apply operations, as a host names the one it calls. *)
Inductive ApplyOp : Type :=
  | OpSession
  | OpOperatingSystem
  | OpApplication
  | OpDevice
  | OpInternal
  | OpLocation
  | OpOperation
  | OpWeb
  | OpUser.

Definition applyContext (op : ApplyOp) : TelemetryContext → ITelemetryItem → ITelemetryItem :=
  match op with
  | OpSession => applySessionContext
  | OpOperatingSystem => applyOperatingSystemContxt
  | OpApplication => applyApplicationContext
  | OpDevice => applyDeviceContext
  | OpInternal => applyInternalContext
  | OpLocation => applyLocationContext
  | OpOperation => applyOperationContext
  | OpWeb => applyWebContext
  | OpUser => applyUserContext
  end.

(** A host's sequence of apply calls on one item, first call first. *)
Definition applyAll (_self : TelemetryContext) (ops : list ApplyOp) (evt : ITelemetryItem) : ITelemetryItem :=
  foldl (λ e op, applyContext op _self e) evt ops.

(** ** Cleanup *)

Definition objKeys (o : gmap string Prim) : list string := (map_to_list o).*1.

Definition _removeEmpty (target : option (gmap string ExtValue)) (name : string)
    : option (gmap string ExtValue) :=
  match target with
  | Some t =>
      match t !! name with
      | Some (ExtObject o) =>
          if (length (objKeys o) =? 0)%nat then Some (delete name t) else target
      | Some ExtUndefined | None => target
      end
  | None => target
  end.

Definition cleanUp (_self : TelemetryContext) (evt : ITelemetryItem) : ITelemetryItem :=
  match ext evt with
  | Some _ =>
      let e := ext evt in
      let e := _removeEmpty e Extensions.DeviceExt in
      let e := _removeEmpty e Extensions.UserExt in
      let e := _removeEmpty e Extensions.WebExt in
      let e := _removeEmpty e Extensions.OSExt in
      let e := _removeEmpty e Extensions.AppExt in
      let e := _removeEmpty e Extensions.TraceExt in
      {| ext := e; tags := tags evt; baseType := baseType evt |}
  | None => evt
  end.

(** ** Trace-parent discovery *)

(** The ambient sources discovery can probe.  The constructor's calls to
    them are recorded, in order, next to its result. *)
Inductive Probe : Type :=
  | ProbeW3cTraceParent   (* findW3cTraceParent() *)
  | ProbeDocument         (* getDocument() *)
  | ProbePerformance.     (* getPerformance() *)

Global Instance Probe_eq_dec : EqDecision Probe.
Proof. solve_decision. Defined.

(** A computation that probes the environment: its value and the probes it
    made. *)
Definition Probing (A : Type) : Type := A * list Probe.

Definition ret {A : Type} (a : A) : Probing A := (a, []).

Definition bind {A B : Type} (m : Probing A) (k : A → Probing B) : Probing B :=
  let r := k (fst m) in (fst r, (snd m ++ snd r)%list).

Definition probe {A : Type} (p : Probe) (answer : A) : Probing A := (answer, [p]).

Notation "'let!' x ':=' m 'in' k" := (bind m (λ x, k))
  (at level 10, x name, m at level 100, k at level 200, only parsing).

Record IMetaElement : Type :=
  { meta_name : string; meta_content : RequestIdValue }.
Record IServerTiming : Type :=
  { timing_name : string; timing_description : RequestIdValue }.
Record INavigationTiming : Type :=
  { serverTiming : option (list IServerTiming) }.

(** What the environment probes answer.  Each source may be absent. *)
Record Ambient : Type := mkAmbient {
  (** the W3C carrier, decoded upstream *)
  findW3cTraceParent : option ITraceParent;
  (** [getDocument()], as the result of its [querySelectorAll("meta")] *)
  getDocument : option (list IMetaElement);
  (** [getPerformance()], as the result of its
      [getEntriesByType("navigation")], which may be null *)
  getPerformance : option (option (list INavigationTiming))
}.

(** The elements [_getRequestIdValue] scans have a [name] property. *)
Class Named (A : Type) : Type := nameOf : A → string.
Global Instance IMetaElement_named : Named IMetaElement := meta_name.
Global Instance IServerTiming_named : Named IServerTiming := timing_name.

(** The [for] loop of [_getRequestIdValue]: the first element with a truthy
    name equal to ["Request-Id"]. *)
Fixpoint _getRequestIdValue_loop {A : Type} `{Named A} (values : list A) : option A :=
  match values with
  | [] => None
  | value :: rest =>
      if JsString.truthy (nameOf value) && String.eqb (nameOf value) "Request-Id"
      then Some value
      else _getRequestIdValue_loop rest
  end.

(** [None] is the [{}] returned when nothing is found. *)
Definition _getRequestIdValue {A : Type} `{Named A} (values : option (list A)) : option A :=
  match values with
  | Some values => _getRequestIdValue_loop values
  | None => None
  end.

(** [(...).content] and [(...).description] on the result: a property of
    [{}] is [undefined]. *)
Definition contentOf (value : option IMetaElement) : RequestIdValue :=
  from_option meta_content RidUndefined value.

Definition descriptionOf (value : option IServerTiming) : RequestIdValue :=
  from_option timing_description RidUndefined value.

Definition _findRequestId (env : Ambient) : Probing (option ITraceParent) :=
  let! doc := probe ProbeDocument (getDocument env) in
  let traceParent :=
    match doc with
    | Some metas => _parseRequestId (contentOf (_getRequestIdValue (Some metas)))
    | None => None
    end in
  match traceParent with
  | Some _ => ret traceParent
  | None =>
      let! perf := probe ProbePerformance (getPerformance env) in
      match perf with
      | Some entries =>
          let navPerf := default [] entries in
          (* (navPerf.length > 0 ? navPerf[0] : {}).serverTiming *)
          let timings := head navPerf ≫= serverTiming in
          ret (_parseRequestId (descriptionOf (_getRequestIdValue timings)))
      | None => ret traceParent
      end
  end.

(** The discovery of the constructor: the W3C carrier first, the Request-Id
    sources when it yields nothing. *)
Definition discover (env : Ambient) : Probing (option ITraceParent) :=
  let! traceParent := probe ProbeW3cTraceParent (findW3cTraceParent env) in
  match traceParent with
  | Some _ => ret traceParent
  | None => _findRequestId env
  end.

(** ** Construction *)

Record ITelemetryConfig : Type := { disableTraceParent : bool }.

(** Modelled from the spec: the provider classes ([Application], [Internal],
    [_SessionManager], [Device], [Location], [User], [Session],
    [TelemetryTrace]) and [hasWindow] are missing from the sources at hand.
    The spec describes the providers as plain attribute holders, so the
    host supplies what each constructor returns; the identity provider
    generates the operation's trace id ([generateW3CId]) and derives its
    name from the page ([operationName]). *)
Record Host : Type := mkHost {
  hasWindow : bool;
  newApplication : IApplication;
  newInternal : ITelemetryConfig → IInternal;
  new_SessionManager : ITelemetryConfig → _SessionManager;
  newDevice : IDevice;
  newLocation : ILocation;
  newUser : ITelemetryConfig → IUserContext;
  newSession : ISession;
  generateW3CId : string;
  operationName : Prim
}.

(** Truthiness of a field value, for [id || generateW3CId()]. *)
Definition primTruthy (v : Prim) : bool :=
  match v with
  | PUndefined | PNull => false
  | PString s => JsString.truthy s
  | PNumber n => negb (n =? 0)%Z
  | PBoolean b => b
  end.

(** Modelled from the spec: [new TelemetryTrace(id, parentId, name, logger)].
    The operation's own trace id is the given one or, without one, the id
    the identity provider generates; the parent id is stored as given. *)
Definition newTelemetryTrace (host : Host) (id parentId name : Prim) : ITelemetryTrace :=
  {| traceID := if primTruthy id then id else PString (generateW3CId host);
     parentID := parentId;
     trace_name := if primTruthy name then name else operationName host |}.

Definition seedParentId (env : Ambient) (defaultConfig : ITelemetryConfig) : Probing Prim :=
  if negb (disableTraceParent defaultConfig) then
    let! traceParent := discover env in
    match traceParent with
    | Some traceParent => ret (PString (spanId traceParent))
    | None => ret PUndefined
    end
  else ret PUndefined.

(** The constructor: the context it builds and the probes it made. *)
Definition newTelemetryContext (host : Host) (env : Ambient) (defaultConfig : ITelemetryConfig)
    : Probing TelemetryContext :=
  if hasWindow host then
    let! parentId := seedParentId env defaultConfig in
    ret {| application := Some (newApplication host);
           internal := Some (newInternal host defaultConfig);
           sessionManager := Some (new_SessionManager host defaultConfig);
           device := Some (newDevice host);
           location := Some (newLocation host);
           user := Some (newUser host defaultConfig);
           telemetryTrace := Some (newTelemetryTrace host PUndefined parentId PUndefined);
           session := Some (newSession host);
           os := None;
           web := None |}
  else
    ret {| application := Some (newApplication host);
           internal := Some (newInternal host defaultConfig);
           sessionManager := None;
           device := None;
           location := None;
           user := None;
           telemetryTrace := None;
           session := None;
           os := None;
           web := None |}.

(** ** The legacy format, in the words of the spec *)

(** A hexadecimal character of the pattern [[0-9a-f]]. *)
Definition HexDigit (c : ascii) : Prop :=
  In c (list_ascii_of_string "0123456789abcdef").

(** [[0-9a-f]{n}]. *)
Definition HexString (n : nat) (s : string) : Prop :=
  String.length s = n ∧ Forall HexDigit (list_ascii_of_string s).

Definition AllZero (s : string) : Prop :=
  Forall (λ c, c = "0"%char) (list_ascii_of_string s).

(** [t] matches [^\|[0-9a-f]{32}\.[0-9a-f]{16}\.?$] with [tid] and [sid] as
    its two hexadecimal halves, neither of them all-zero. *)
Record LegacyFormat (t tid sid : string) : Prop := {
  legacy_shape :
    t = "|" +:+ tid +:+ "." +:+ sid ∨ t = "|" +:+ tid +:+ "." +:+ sid +:+ ".";
  legacy_trace_hex : HexString 32 tid;
  legacy_span_hex : HexString 16 sid;
  legacy_trace_nonzero : ¬ AllZero tid;
  legacy_span_nonzero : ¬ AllZero sid
}.

(** The span half of the parser, with its optional trailing dot stripped. *)
Definition stripDot (spanId : string) : string :=
  if strEndsWith spanId "."
  then JsString.substring spanId 0 (String.length spanId - 1)
  else spanId.

(** The string of [n] zeros. *)
Fixpoint zeros (n : nat) : string :=
  match n with
  | O => EmptyString
  | S n => String "0" (zeros n)
  end.

(** ** The session-id policy, in the words of the spec *)

(** The explicit string id the session provider holds, if any. *)
Definition explicitSessionId (_self : TelemetryContext) : option string :=
  s ← session _self;
  match ses_id s with
  | PString id => Some id
  | _ => None
  end.

(** The string id of the session manager's automatic session, if any. *)
Definition automaticSessionId (_self : TelemetryContext) : option string :=
  m ← sessionManager _self;
  a ← automaticSession m;
  match ses_id a with
  | PString id => Some id
  | _ => None
  end.

(** ** Reading an item *)

(** [evt.ext[k]], when the item has an [ext] with the own key [k]. *)
Definition extLookup (evt : ITelemetryItem) (k : string) : option ExtValue :=
  e ← ext evt; e !! k.

(** [evt.tags[k]], when the item has [tags] with the own key [k]. *)
Definition tagLookup (evt : ITelemetryItem) (k : string) : option Prim :=
  t ← tags evt; tagsProps t !! k.

(** The six extension buckets [cleanUp] names, in its order. *)
Definition namedBuckets : list string :=
  [Extensions.DeviceExt; Extensions.UserExt; Extensions.WebExt;
   Extensions.OSExt; Extensions.AppExt; Extensions.TraceExt].

(** A bucket mutation that only adds or overwrites individual keys: its
    result is the written keys laid over the bucket it was given. *)
Definition Overwrites (F : gmap string Prim → gmap string Prim) : Prop :=
  ∃ written : gmap string Prim, ∀ t, F t = written ∪ t.

(** ** The sources of discovery, in the words of the spec *)

(** [v] is the first element of [values] whose name is ["Request-Id"]. *)
Definition FirstRequestId {A : Type} `{Named A} (values : list A) (v : A) : Prop :=
  ∃ before after,
    values = (before ++ v :: after)%list
    ∧ nameOf v = "Request-Id"
    ∧ Forall (λ x, nameOf x ≠ "Request-Id") before.

(** The token the document source yields: the content of the metadata
    element picked by [_getRequestIdValue], parsed. *)
Definition documentToken (env : Ambient) : option ITraceParent :=
  metas ← getDocument env;
  _parseRequestId (contentOf (_getRequestIdValue (Some metas))).

(** The token the navigation-timing source yields: the description of the
    entry picked by [_getRequestIdValue] in the server-timing list of the
    first navigation entry, parsed. *)
Definition serverTimingToken (env : Ambient) : option ITraceParent :=
  entries ← getPerformance env;
  _parseRequestId
    (descriptionOf (_getRequestIdValue (head (default [] entries) ≫= serverTiming))).

(** ** Sample hosts, contexts and items *)

Definition emptyItem : ITelemetryItem := mkItem None None None.

Definition sampleConfig : ITelemetryConfig := {| disableTraceParent := false |}.

(** A host without a window (a non-interactive environment). *)
Definition nodeHost : Host :=
  {| hasWindow := false;
     newApplication := {| app_ver := PUndefined; app_build := PUndefined |};
     newInternal := λ _,
       {| agentVersion := PUndefined; sdkVersion := PString "javascript:2.8.4";
          snippetVer := PUndefined; sdkSrc := PUndefined |};
     new_SessionManager := λ _, {| automaticSession := None |};
     newDevice :=
       {| dev_id := PString "browser"; dev_ip := PUndefined;
          dev_model := PUndefined; dev_deviceClass := PString "Browser" |};
     newLocation := {| loc_ip := PUndefined |};
     newUser := λ _,
       {| user_accountId := PUndefined; user_id := PString "u1";
          user_authenticatedId := PUndefined |};
     newSession := {| ses_id := PUndefined |};
     generateW3CId := "0af7651916cd43dd8448eb211c80319c";
     operationName := PString "/index.html" |}.

(** The same host, with a window. *)
Definition browserHost : Host :=
  {| hasWindow := true;
     newApplication := newApplication nodeHost;
     newInternal := newInternal nodeHost;
     new_SessionManager := λ _,
       {| automaticSession := Some {| ses_id := PString "auto-session" |} |};
     newDevice := newDevice nodeHost;
     newLocation := newLocation nodeHost;
     newUser := newUser nodeHost;
     newSession := newSession nodeHost;
     generateW3CId := generateW3CId nodeHost;
     operationName := operationName nodeHost |}.

Definition noAmbient : Ambient :=
  {| findW3cTraceParent := None; getDocument := None; getPerformance := None |}.

Definition sampleRequestId : string :=
  "|4bf92f3577b34da6a3ce929d0e0e4736.00f067aa0ba902b7.".

Definition sampleTraceParent : ITraceParent :=
  createTraceParent "4bf92f3577b34da6a3ce929d0e0e4736" "00f067aa0ba902b7".

(** A document with one [<meta name="Request-Id">] carrying a valid token. *)
Definition metaAmbient : Ambient :=
  {| findW3cTraceParent := None;
     getDocument :=
       Some [ {| meta_name := "viewport"; meta_content := RidString "width=device-width" |};
              {| meta_name := "Request-Id"; meta_content := RidString sampleRequestId |} ];
     getPerformance := None |}.

(** A document with two [<meta name="Request-Id">]: the first carries a
    malformed token, the second a valid one. *)
Definition twoMetaAmbient : Ambient :=
  {| findW3cTraceParent := None;
     getDocument :=
       Some [ {| meta_name := "Request-Id"; meta_content := RidString "|not-a-token" |};
              {| meta_name := "Request-Id"; meta_content := RidString sampleRequestId |} ];
     getPerformance := None |}.

(** A context whose session provider holds an explicit id. *)
Definition sessionContext : TelemetryContext :=
  {| application := None; device := None; location := None; telemetryTrace := None;
     user := None; internal := None;
     session := Some {| ses_id := PString "explicit" |};
     sessionManager :=
       Some {| automaticSession := Some {| ses_id := PString "automatic" |} |};
     os := Some {[ "name" := PString "Windows" ]};
     web := None |}.

(** An item whose [ext] holds an empty object under a key that is none of
    the six named buckets. *)
Definition sdkItem : ITelemetryItem :=
  mkItem (Some {[ "sdk" := ExtObject ∅ ]}) None None.

(** ** Reading a bucket field, and mutations that write strings only *)

(** [evt.ext[bucket][field]], when the item has that bucket with that own
    key. *)
Definition extField (evt : ITelemetryItem) (bucket field : string) : option Prim :=
  match extLookup evt bucket with
  | Some (ExtObject o) => o !! field
  | Some ExtUndefined | None => None
  end.

(** A bucket mutation after which every key reads as before or holds a
    string. *)
Definition WritesStrings (F : gmap string Prim → gmap string Prim) : Prop :=
  ∀ t k, F t !! k = t !! k ∨ ∃ s, F t !! k = Some (PString s).

(** A page whose metadata and server timing carry no Request-Id. *)
Definition plainAmbient : Ambient :=
  {| findW3cTraceParent := None;
     getDocument :=
       Some [ {| meta_name := "viewport"; meta_content := RidString "width=device-width" |};
              {| meta_name := ""; meta_content := RidString sampleRequestId |} ];
     getPerformance :=
       Some (Some [ {| serverTiming :=
                         Some [ {| timing_name := "cache";
                                   timing_description := RidString "hit" |} ] |} ]) |}.

(** A context whose only provider is a device that holds no string. *)
Definition blankDeviceContext : TelemetryContext :=
  {| application := None;
     device := Some {| dev_id := PUndefined; dev_ip := PNull;
                       dev_model := PNumber 3; dev_deviceClass := PUndefined |};
     location := None; telemetryTrace := None; user := None; internal := None;
     session := None; sessionManager := None; os := None; web := None |}.

(** * Properties *)

(** ** Strings *)

Section StringFacts.

Local Open Scope nat_scope.
Local Arguments String.append !_ _ / : simpl nomatch.

Lemma isHexLower_HexDigit (c : ascii) : isHexLower c = true ↔ HexDigit c.
Proof.
  unfold HexDigit.
  destruct c as [[] [] [] [] [] [] [] []]; vm_compute; split; intros H;
    first [ discriminate H | exact I | tauto
          | (repeat (destruct H as [H | H]; [discriminate H |]); destruct H) ].
Qed.

Lemma allChars_Forall (p : ascii → bool) (s : string) :
  JsString.allChars p s = true ↔ Forall (λ c, p c = true) (list_ascii_of_string s).
Proof.
  induction s as [| c s IH]; simpl.
  - split; [constructor | done].
  - rewrite andb_true_iff, IH, Forall_cons. done.
Qed.

Lemma allChars_hex (s : string) :
  JsString.allChars isHexLower s = true ↔ Forall HexDigit (list_ascii_of_string s).
Proof.
  rewrite allChars_Forall. apply Forall_iff. intros c. apply isHexLower_HexDigit.
Qed.

Lemma AllZero_zeros (s : string) : AllZero s ↔ s = zeros (String.length s).
Proof.
  unfold AllZero. induction s as [| c s IH]; simpl.
  - split; [done | constructor].
  - rewrite Forall_cons, IH. split.
    + intros [-> <-]. done.
    + intros [= -> Hs]. done.
Qed.

Lemma length_app (a b : string) :
  String.length (a +:+ b) = String.length a + String.length b.
Proof. induction a as [| c a IH]; simpl; [done | by rewrite IH]. Qed.

Lemma substring_all (s : string) (m : nat) :
  String.length s ≤ m → String.substring 0 m s = s.
Proof.
  revert m. induction s as [| c s IH]; intros [| m] Hm; simpl in *; try done; try lia.
  rewrite IH; [done | lia].
Qed.

Lemma substring_prefix (a b : string) :
  String.substring 0 (String.length a) (a +:+ b) = a.
Proof. induction a; simpl; [by destruct b | congruence]. Qed.

Lemma substring_skip (a b : string) (m : nat) :
  String.substring (String.length a) m (a +:+ b) = String.substring 0 m b.
Proof. induction a; simpl; done. Qed.

Lemma js_substring_eq (s : string) (from to : nat) :
  from ≤ to → to ≤ String.length s →
  JsString.substring s from to = String.substring from (to - from) s.
Proof.
  intros H1 H2. unfold JsString.substring.
  rewrite (Nat.min_l from), (Nat.min_l to), (Nat.min_l from), (Nat.max_r from) by lia.
  done.
Qed.

Lemma js_substring_prefix (a b : string) :
  JsString.substring (a +:+ b) 0 (String.length a) = a.
Proof.
  rewrite js_substring_eq; [| lia | rewrite length_app; lia].
  rewrite Nat.sub_0_r. apply substring_prefix.
Qed.

Lemma js_substringFrom_skip (a b : string) :
  JsString.substringFrom (a +:+ b) (String.length a) = b.
Proof.
  unfold JsString.substringFrom.
  rewrite js_substring_eq; [| rewrite length_app; lia | lia].
  rewrite substring_skip. apply substring_all. rewrite length_app. lia.
Qed.

Lemma js_substring_middle (c : ascii) (a b : string) :
  JsString.substring (String c (a +:+ b)) 1 (S (String.length a)) = a.
Proof.
  rewrite js_substring_eq; [| lia | simpl; rewrite length_app; lia].
  simpl. rewrite Nat.sub_0_r. apply substring_prefix.
Qed.

(** [indexOf] splits the string at the first occurrence. *)
Lemma indexOf_Some (s : string) (c : ascii) (i : nat) :
  JsString.indexOf s c = Some i →
  ∃ a b, s = a +:+ String c b ∧ String.length a = i
         ∧ JsString.allChars (λ d, negb (Ascii.eqb d c)) a = true.
Proof.
  revert i. induction s as [| d s IH]; intros i; simpl; [done |].
  destruct (Ascii.eqb d c) eqn:Hd.
  - intros [= <-]. apply Ascii.eqb_eq in Hd as ->. by exists "", s.
  - destruct (JsString.indexOf s c) as [j |] eqn:Hj; simpl; [| done].
    intros [= <-]. destruct (IH j eq_refl) as (a & b & -> & <- & Ha).
    exists (String d a), b. simpl. by rewrite Hd, Ha.
Qed.

Lemma indexOf_app (a b : string) (c : ascii) :
  JsString.allChars (λ d, negb (Ascii.eqb d c)) a = true →
  JsString.indexOf (a +:+ String c b) c = Some (String.length a).
Proof.
  induction a as [| d a IH]; simpl.
  - by rewrite Ascii.eqb_refl.
  - intros [Hd Ha]%andb_true_iff. apply negb_true_iff in Hd. rewrite Hd, (IH Ha). done.
Qed.

Lemma lastChar_app (a : string) (c : ascii) :
  JsString.lastChar (a +:+ String c "") = Some c.
Proof.
  induction a as [| d a IH]; simpl; [done |].
  rewrite IH. by destruct a.
Qed.

Lemma lastChar_Some (s : string) (c : ascii) :
  JsString.lastChar s = Some c → ∃ a, s = a +:+ String c "".
Proof.
  induction s as [| d s IH]; simpl; [done |].
  destruct s as [| e s].
  - intros [= ->]. by exists "".
  - intros [a ->]%IH. by exists (String d a).
Qed.

Lemma lastChar_allChars (p : ascii → bool) (s : string) (c : ascii) :
  JsString.allChars p s = true → JsString.lastChar s = Some c → p c = true.
Proof.
  intros Hs [a ->]%lastChar_Some. induction a as [| d a IH]; simpl in Hs.
  - by apply andb_true_iff in Hs as [? _].
  - apply andb_true_iff in Hs as [_ ?]. auto.
Qed.

Lemma app_assoc' (a b c : string) : (a +:+ b) +:+ c = a +:+ b +:+ c.
Proof. induction a as [| d a IH]; simpl; [done | by rewrite IH]. Qed.

Lemma app_empty_r (a : string) : a +:+ "" = a.
Proof. induction a as [| d a IH]; simpl; [done | by rewrite IH]. Qed.

Lemma hex_no_dot (s : string) :
  JsString.allChars isHexLower s = true →
  JsString.allChars (λ d, negb (Ascii.eqb d ".")) s = true.
Proof.
  induction s as [| c s IH]; simpl; [done |].
  intros [Hc Hs]%andb_true_iff. rewrite (IH Hs), andb_true_r.
  destruct (Ascii.eqb c ".") eqn:E; [| done].
  apply Ascii.eqb_eq in E as ->. discriminate Hc.
Qed.

End StringFacts.

(** ** The Request-Id parser *)

Section Parser.

Local Open Scope nat_scope.
Local Arguments String.append !_ _ / : simpl nomatch.

Lemma _isValid_iff (v : string) (n : nat) (inv : string) :
  0 < n →
  _isValid v n inv = true
  ↔ String.length v = n ∧ JsString.allChars isHexLower v = true ∧ v ≠ inv.
Proof.
  intros Hn. unfold _isValid.
  rewrite !andb_true_iff, negb_true_iff, Nat.eqb_eq.
  assert (String.eqb v inv = false ↔ v ≠ inv) as ->.
  { destruct (String.eqb_spec v inv); split; congruence. }
  split; [tauto |]. intros (Hl & Hh & Hne). repeat split; try done.
  destruct v; simpl in *; [lia | done].
Qed.

Lemma isValidTraceId_spec (v : string) :
  isValidTraceId v = true ↔ HexString 32 v ∧ ¬ AllZero v.
Proof.
  unfold isValidTraceId, HexString. rewrite _isValid_iff by lia.
  rewrite allChars_hex, AllZero_zeros. split.
  - intros (Hl & Hh & Hne). rewrite Hl. done.
  - intros ((Hl & Hh) & Hne). rewrite Hl in Hne. done.
Qed.

Lemma isValidSpanId_spec (v : string) :
  isValidSpanId v = true ↔ HexString 16 v ∧ ¬ AllZero v.
Proof.
  unfold isValidSpanId, HexString. rewrite _isValid_iff by lia.
  rewrite allChars_hex, AllZero_zeros. split.
  - intros (Hl & Hh & Hne). rewrite Hl. done.
  - intros ((Hl & Hh) & Hne). rewrite Hl in Hne. done.
Qed.

Lemma strStartsWith_pipe (t : string) :
  strStartsWith t "|" = true ↔ ∃ r, t = String "|" r.
Proof.
  unfold strStartsWith. destruct t as [| c r]; cbn [JsString.truthy String.prefix andb].
  - split; [done | by intros [? ?]].
  - destruct (ascii_dec "|" c) as [<- | Hc].
    + split; [by exists r | by destruct r].
    + split; [done | intros [? [= ? _]]; done].
Qed.

Lemma stripDot_cases (b : string) :
  (stripDot b = b ∧ strEndsWith b "." = false) ∨ b = stripDot b +:+ ".".
Proof.
  unfold stripDot, strEndsWith.
  destruct (JsString.lastChar b) as [c |] eqn:Hc; [| by left].
  destruct (Ascii.eqb c ".") eqn:E; [| by left].
  apply Ascii.eqb_eq in E as ->. apply lastChar_Some in Hc as [a ->].
  right. rewrite length_app. simpl String.length.
  replace (String.length a + 1 - 1) with (String.length a) by lia.
  by rewrite js_substring_prefix.
Qed.

Lemma stripDot_hex (sid : string) :
  HexString 16 sid → stripDot sid = sid ∧ stripDot (sid +:+ ".") = sid.
Proof.
  intros [Hl Hh%allChars_hex]. unfold stripDot, strEndsWith. split.
  - destruct (JsString.lastChar sid) as [c |] eqn:Hc; [| done].
    pose proof (lastChar_allChars _ _ _ (hex_no_dot _ Hh) Hc) as Hd.
    apply negb_true_iff in Hd. by rewrite Hd.
  - rewrite lastChar_app. simpl Ascii.eqb. cbv iota.
    rewrite length_app. simpl String.length.
    replace (String.length sid + 1 - 1) with (String.length sid) by lia.
    apply js_substring_prefix.
Qed.

(** The parser on a trimmed string, split at the first dot. *)
Lemma parse_split (a b : string) :
  JsString.allChars (λ d, negb (Ascii.eqb d ".")) a = true →
  JsString.indexOf (String "|" (a +:+ String "." b)) "." = Some (S (String.length a))
  ∧ JsString.substring (String "|" (a +:+ String "." b)) 1 (S (String.length a)) = a
  ∧ JsString.substringFrom (String "|" (a +:+ String "." b)) (S (String.length a) + 1) = b.
Proof.
  intros Ha. split; [| split].
  - simpl. by rewrite (indexOf_app a b "." Ha).
  - apply js_substring_middle.
  - assert (String "|" (a +:+ String "." b) = ("|" +:+ a +:+ ".") +:+ b) as ->.
    { simpl. by rewrite app_assoc'. }
    replace (S (String.length a) + 1) with (String.length ("|" +:+ a +:+ ".")).
    + apply js_substringFrom_skip.
    + simpl. rewrite length_app. simpl. lia.
Qed.

Lemma _parseRequestIdString_Some (s : string) (tp : ITraceParent) :
  _parseRequestIdString s = Some tp
  ↔ LegacyFormat (strTrim s) (traceId tp) (spanId tp).
Proof.
  unfold _parseRequestIdString. split.
  - destruct (JsString.truthy s); [| done].
    destruct (strStartsWith (strTrim s) "|") eqn:Hp; [| done].
    apply strStartsWith_pipe in Hp as [r Hr]. rewrite Hr.
    destruct (JsString.indexOf (String "|" r) ".") as [idx |] eqn:Hi; [| done].
    simpl in Hi. destruct (JsString.indexOf r ".") as [i |] eqn:Hj; [| done].
    injection Hi as <-.
    apply indexOf_Some in Hj as (a & b & -> & <- & Ha).
    destruct (parse_split a b Ha) as (_ & -> & ->).
    fold (stripDot b).
    destruct (isValidTraceId a) eqn:Ht; [| done].
    destruct (isValidSpanId (stripDot b)) eqn:Hs; [| done].
    intros [= <-]. simpl.
    apply isValidTraceId_spec in Ht as [? ?]. apply isValidSpanId_spec in Hs as [? ?].
    split; try done.
    destruct (stripDot_cases b) as [[-> _] | Hb].
    + left. done.
    + right. rewrite Hb at 1. done.
  - intros [Hshape Ht Hs Htz Hsz].
    assert (JsString.truthy s = true) as ->.
    { destruct s; [| done]. by destruct Hshape. }
    assert (∃ b, strTrim s = String "|" (traceId tp +:+ String "." b)
                 ∧ stripDot b = spanId tp) as (b & -> & Hb).
    { destruct (stripDot_hex _ Hs) as [H1 H2].
      destruct Hshape as [-> | ->]; eauto. }
    assert (strStartsWith (String "|" (traceId tp +:+ String "." b)) "|" = true) as ->.
    { apply strStartsWith_pipe. eauto. }
    destruct (parse_split (traceId tp) b) as (-> & -> & ->).
    { apply hex_no_dot. apply allChars_hex. apply Ht. }
    fold (stripDot b). rewrite Hb.
    assert (isValidTraceId (traceId tp) = true) as -> by by apply isValidTraceId_spec.
    assert (isValidSpanId (spanId tp) = true) as -> by by apply isValidSpanId_spec.
    simpl. by destruct tp.
Qed.

End Parser.

Section ParserClaims.

Local Arguments String.append !_ _ / : simpl nomatch.

Lemma strTrim_truthy (s : string) :
  JsString.truthy (strTrim s) = true → JsString.truthy s = true.
Proof. unfold strTrim. destruct (JsString.truthy s) eqn:E; [done | by rewrite E]. Qed.

(** On a string whose trimmed form has the shape of the legacy format, with
    or without the trailing dot, the parser's answer is decided by the two
    validators alone. *)
Lemma _parseRequestIdString_shape (s tid sid : string) :
  HexString 32 tid → HexString 16 sid →
  strTrim s = "|" +:+ tid +:+ "." +:+ sid ∨ strTrim s = "|" +:+ tid +:+ "." +:+ sid +:+ "." →
  _parseRequestIdString s =
    if isValidTraceId tid && isValidSpanId sid
    then Some (createTraceParent tid sid) else None.
Proof.
  intros Ht Hs Hshape. unfold _parseRequestIdString.
  assert (JsString.truthy s = true) as ->.
  { apply strTrim_truthy. by destruct Hshape as [-> | ->]. }
  assert (∃ b, strTrim s = String "|" (tid +:+ String "." b) ∧ stripDot b = sid)
    as (b & -> & Hb).
  { destruct (stripDot_hex _ Hs) as [H1 H2]. destruct Hshape as [-> | ->]; eauto. }
  assert (strStartsWith (String "|" (tid +:+ String "." b)) "|" = true) as ->.
  { apply strStartsWith_pipe. eauto. }
  destruct (parse_split tid b) as (-> & -> & ->).
  { apply hex_no_dot. apply allChars_hex. apply Ht. }
  fold (stripDot b). by rewrite Hb.
Qed.

(** C1. For every string [s], the parser returns a trace parent exactly when
    the trimmed [s] matches the legacy format
    [^\|[0-9a-f]{32}\.[0-9a-f]{16}\.?$] with neither half all-zero; then the
    result's [traceId] is the 32-character half and its [spanId] the
    16-character half.  A string that does not match yields none, and the
    optional trailing dot makes no difference. *)
Theorem parseRequestId_legacy_format (s : string) :
  (∀ tp, _parseRequestId (RidString s) = Some tp
         ↔ LegacyFormat (strTrim s) (traceId tp) (spanId tp))
  ∧ ((¬ ∃ tid sid, LegacyFormat (strTrim s) tid sid) →
     _parseRequestId (RidString s) = None)
  ∧ (∀ s' tid sid,
       HexString 32 tid → HexString 16 sid →
       strTrim s = "|" +:+ tid +:+ "." +:+ sid →
       strTrim s' = "|" +:+ tid +:+ "." +:+ sid +:+ "." →
       _parseRequestId (RidString s') = _parseRequestId (RidString s)).
Proof.
  assert (∀ x, _parseRequestId (RidString x) = _parseRequestIdString x) as Hstr.
  { intros x. unfold _parseRequestId, _parseRequestIdString. simpl.
    by destruct (JsString.truthy x). }
  split; [| split].
  - intros tp. rewrite Hstr. apply _parseRequestIdString_Some.
  - intros Hno. destruct (_parseRequestId (RidString s)) as [tp |] eqn:Hp; [| done].
    rewrite Hstr in Hp. apply _parseRequestIdString_Some in Hp.
    destruct Hno. eauto.
  - intros s' tid sid Ht Hs H1 H2. rewrite !Hstr.
    rewrite (_parseRequestIdString_shape s tid sid), (_parseRequestIdString_shape s' tid sid);
      auto.
Qed.

Lemma parseRequestId_legacy_format_witness :
  _parseRequestId (RidString " |4bf92f3577b34da6a3ce929d0e0e4736.00f067aa0ba902b7.")
  = Some (createTraceParent "4bf92f3577b34da6a3ce929d0e0e4736" "00f067aa0ba902b7")
  ∧ _parseRequestId (RidString "|4bf92f3577b34da6a3ce929d0e0e4736.00f067aa0ba902b7.")
    = _parseRequestId (RidString "|4bf92f3577b34da6a3ce929d0e0e4736.00f067aa0ba902b7").
Proof.
  assert (HexString 32 "4bf92f3577b34da6a3ce929d0e0e4736") as Ht.
  { split; [reflexivity |]. apply allChars_hex. reflexivity. }
  assert (HexString 16 "00f067aa0ba902b7") as Hs.
  { split; [reflexivity |]. apply allChars_hex. reflexivity. }
  split.
  - apply (proj1 (parseRequestId_legacy_format _)). split; simpl.
    + right. reflexivity.
    + exact Ht.
    + exact Hs.
    + intros H%AllZero_zeros. discriminate H.
    + intros H%AllZero_zeros. discriminate H.
  - apply (proj2 (proj2 (parseRequestId_legacy_format _)) _ _ _ Ht Hs); reflexivity.
Defined.

Example strTrim_surrounding :
  strTrim "  |a.b .  " = "|a.b ." ∧ strTrim "   " = "" ∧ strTrim "" = "".
Proof. repeat split; reflexivity. Qed.

Example parseRequestId_all_zero_trace :
  _parseRequestId (RidString "|00000000000000000000000000000000.00f067aa0ba902b7.") = None.
Proof. reflexivity. Qed.

Example parseRequestId_upper_case :
  _parseRequestId (RidString "|4BF92F3577B34DA6A3CE929D0E0E4736.00f067aa0ba902b7") = None.
Proof. reflexivity. Qed.

(** C9. Given a sequence of strings the parser behaves as on the sequence's
    first element; the empty sequence yields none. *)
Theorem parseRequestId_sequence (l : list string) :
  _parseRequestId (RidArray l) =
    match l with
    | [] => None
    | first :: _ => _parseRequestId (RidString first)
    end.
Proof.
  destruct l as [| first rest]; [reflexivity |].
  unfold _parseRequestId. simpl.
  destruct (JsString.truthy first) eqn:Hf; [done |].
  by destruct first.
Qed.

Example parseRequestId_sequence_abc :
  _parseRequestId (RidArray ["abc"; "def"]) = _parseRequestId (RidString "abc")
  ∧ _parseRequestId (RidArray []) = None.
Proof. split; reflexivity. Qed.

End ParserClaims.

(** ** The session-id accessor *)

(** C5. [getSessionId] returns the session provider's id whenever the
    provider is present and its id is a string, whatever the automatic
    session holds; otherwise the automatic session's id when the session
    manager is present and that id is a string; otherwise null. *)
Theorem getSessionId_policy (_self : TelemetryContext) :
  getSessionId _self =
    match explicitSessionId _self with
    | Some id => PString id
    | None =>
        match automaticSessionId _self with
        | Some id => PString id
        | None => PNull
        end
    end.
Proof.
  unfold getSessionId, explicitSessionId, automaticSessionId.
  destruct (session _self) as [[sid] |]; simpl;
    destruct (sessionManager _self) as [[[[aid] |]] |]; simpl;
    try destruct sid; simpl; try destruct aid; simpl; reflexivity.
Qed.

Example getSessionId_prefers_explicit :
  getSessionId sessionContext = PString "explicit".
Proof. reflexivity. Qed.

(** ** Cleanup *)

Section CleanUp.

Lemma objKeys_empty (o : gmap string Prim) :
  (length (objKeys o) =? 0)%nat = true ↔ o = ∅.
Proof.
  unfold objKeys. rewrite Nat.eqb_eq, length_fmap. split.
  - intros H. apply map_to_list_empty_iff. by apply nil_length_inv.
  - intros ->. by rewrite map_to_list_empty.
Qed.

Lemma _removeEmpty_lookup (t : gmap string ExtValue) (name : string) :
  ∃ t', _removeEmpty (Some t) name = Some t'
        ∧ ∀ k, t' !! k =
               if decide (k = name ∧ t !! k = Some (ExtObject ∅)) then None else t !! k.
Proof.
  unfold _removeEmpty.
  destruct (t !! name) as [[| o] |] eqn:Hn.
  - exists t. split; [done |]. intros k. case_decide as H; [| done].
    destruct H as [-> H]. congruence.
  - destruct (length (objKeys o) =? 0)%nat eqn:Ho.
    + apply objKeys_empty in Ho as ->. exists (delete name t). split; [done |].
      intros k. rewrite lookup_delete. case_decide as Hk.
      * subst k. rewrite decide_True; done.
      * rewrite decide_False; [done |]. intros [? _]. done.
    + exists t. split; [done |]. intros k. case_decide as H; [| done].
      destruct H as [-> H]. rewrite Hn in H. injection H as ->.
      assert ((length (objKeys (∅ : gmap string Prim)) =? 0)%nat = true) as Hc
        by by apply objKeys_empty.
      congruence.
  - exists t. split; [done |]. intros k. case_decide as H; [| done].
    destruct H as [-> H]. congruence.
Qed.

Lemma _removeEmpty_all (names : list string) (t : gmap string ExtValue) :
  ∃ t', foldl _removeEmpty (Some t) names = Some t'
        ∧ ∀ k, t' !! k =
               if decide (k ∈ names ∧ t !! k = Some (ExtObject ∅)) then None else t !! k.
Proof.
  revert t. induction names as [| name names IH]; intros t; cbn [foldl].
  - exists t. split; [done |]. intros k. rewrite decide_False; [done |].
    intros [H _]. by apply not_elem_of_nil in H.
  - destruct (_removeEmpty_lookup t name) as (t1 & -> & H1).
    destruct (IH t1) as (t' & -> & H'). exists t'. split; [done |].
    intros k. rewrite H', H1.
    repeat destruct (decide _); try done; exfalso;
      rewrite ?elem_of_cons in *; intuition congruence.
Qed.

Lemma cleanUp_fold (_self : TelemetryContext) (evt : ITelemetryItem) :
  cleanUp _self evt =
    match ext evt with
    | Some e =>
        {| ext := foldl _removeEmpty (Some e) namedBuckets;
           tags := tags evt; baseType := baseType evt |}
    | None => evt
    end.
Proof. unfold cleanUp. by destruct (ext evt). Qed.

Lemma cleanUp_ext (_self : TelemetryContext) (evt : ITelemetryItem) (e : gmap string ExtValue) :
  ext evt = Some e →
  ∃ e', ext (cleanUp _self evt) = Some e'
        ∧ ∀ k, e' !! k =
               if decide (k ∈ namedBuckets ∧ e !! k = Some (ExtObject ∅))
               then None else e !! k.
Proof.
  intros He. rewrite cleanUp_fold, He. cbn [ext].
  destruct (_removeEmpty_all namedBuckets e) as (e' & -> & H). eauto.
Qed.

Lemma cleanUp_without_ext (_self : TelemetryContext) (evt : ITelemetryItem) :
  ext evt = None → cleanUp _self evt = evt.
Proof. intros He. by rewrite cleanUp_fold, He. Qed.

(** C10. [cleanUp] deletes at most the six named buckets, and among them
    only those present with zero own keys; every other key of [ext], every
    non-empty named bucket and the [tags] mapping are left as they were, and
    an item without [ext] is left unchanged. *)
Theorem cleanUp_frame (_self : TelemetryContext) (evt : ITelemetryItem) :
  tags (cleanUp _self evt) = tags evt
  ∧ baseType (cleanUp _self evt) = baseType evt
  ∧ match ext evt with
    | None => cleanUp _self evt = evt
    | Some e =>
        ∃ e', ext (cleanUp _self evt) = Some e'
              ∧ ∀ k, e' !! k =
                     if decide (k ∈ namedBuckets ∧ e !! k = Some (ExtObject ∅))
                     then None else e !! k
    end.
Proof.
  split; [| split].
  - rewrite cleanUp_fold. by destruct (ext evt).
  - rewrite cleanUp_fold. by destruct (ext evt).
  - destruct (ext evt) as [e |] eqn:He.
    + by apply cleanUp_ext.
    + by apply cleanUp_without_ext.
Qed.

Example cleanUp_removes_empty_named_buckets :
  cleanUp sessionContext
    (mkItem (Some (<["device" := ExtObject ∅]> (<["os" := ExtUndefined]>
                    (<["user" := ExtObject {[ "id" := PString "u1" ]}]>
                       {[ "sdk" := ExtObject ∅ ]}))))
            None None)
  = mkItem (Some (<["os" := ExtUndefined]>
                    (<["user" := ExtObject {[ "id" := PString "u1" ]}]>
                       {[ "sdk" := ExtObject ∅ ]})))
           None None.
Proof. vm_compute. reflexivity. Qed.

End CleanUp.

(** ** The apply operations *)

Section Overwriting.

Implicit Types (t : gmap string Prim) (e : gmap string ExtValue).
Implicit Types (F : gmap string Prim → gmap string Prim).

(** With the [isString] check, [setValue] stores strings and nothing else. *)
Lemma setValue_isString t (field : string) (value : Prim) :
  setValue t field value (Some isString) =
    if isString value then <[field := value]> t else t.
Proof.
  unfold setValue, readProp. simpl.
  destruct (isString value) eqn:Hv; [| by rewrite andb_false_r].
  rewrite andb_true_r. case_bool_decide as H; [done |].
  symmetry. apply insert_id.
  destruct (t !! field); simpl in H; [by subst |].
  subst value. done.
Qed.

Lemma Overwrites_id : Overwrites (λ t, t).
Proof. exists ∅. intros t. by rewrite (left_id_L ∅ (∪)). Qed.

Lemma Overwrites_setValue F (field : string) (value : Prim) :
  Overwrites F → Overwrites (λ t, setValue (F t) field value (Some isString)).
Proof.
  intros [w Hw]. destruct (isString value) eqn:Hv.
  - exists (<[field := value]> w). intros t.
    by rewrite setValue_isString, Hv, Hw, insert_union_l.
  - exists w. intros t. by rewrite setValue_isString, Hv, Hw.
Qed.

Lemma Overwrites_idem F t : Overwrites F → F (F t) = F t.
Proof.
  intros [w Hw]. rewrite !Hw. by rewrite (assoc_L (∪)), (idemp_L (∪)).
Qed.

End Overwriting.

(** The field writes of every operation only add or overwrite keys. *)
Ltac overwrites :=
  repeat first [ apply Overwrites_id | apply Overwrites_setValue ].

Section Apply.

Implicit Types (t : gmap string Prim) (e : gmap string ExtValue).
Implicit Types (F : gmap string Prim → gmap string Prim).

Lemma setValueExt_idem e (field : string) (value : ExtValue) :
  setValueExt (setValueExt e field value) field value = setValueExt e field value.
Proof.
  unfold setValueExt. destruct (bool_decide (readExt e field ≠ value)) eqn:H.
  - unfold readExt. rewrite lookup_insert_eq. simpl.
    by rewrite bool_decide_false by (intros Hn; by apply Hn).
  - by rewrite H.
Qed.

Lemma getSetValue_bucket_idem e (field : string) (defValue : gmap string Prim) F :
  Overwrites F →
  getSetValue_bucket (getSetValue_bucket e field defValue F) field defValue F
  = getSetValue_bucket e field defValue F.
Proof.
  intros HF. unfold getSetValue_bucket.
  by rewrite lookup_insert_eq, Overwrites_idem, insert_insert_eq.
Qed.

Lemma getSetValue_ext_idem (evt : ITelemetryItem) (G : gmap string ExtValue → gmap string ExtValue) :
  (∀ e, G (G e) = G e) →
  getSetValue_ext (getSetValue_ext evt G) G = getSetValue_ext evt G.
Proof. intros HG. unfold getSetValue_ext. simpl. by rewrite HG. Qed.

Lemma getSetValue_tags_idem (evt : ITelemetryItem) (defIsArray : bool) F :
  Overwrites F →
  getSetValue_tags (getSetValue_tags evt defIsArray F) defIsArray F
  = getSetValue_tags evt defIsArray F.
Proof. intros HF. unfold getSetValue_tags. simpl. by rewrite Overwrites_idem. Qed.

Lemma applySessionContext_idem (_self : TelemetryContext) (evt : ITelemetryItem) :
  applySessionContext _self (applySessionContext _self evt) = applySessionContext _self evt.
Proof.
  unfold applySessionContext. destruct (ext evt) as [e |] eqn:He; simpl; [| by rewrite He].
  rewrite getSetValue_bucket_idem; [done |]. overwrites.
Qed.

Lemma applyOperatingSystemContxt_idem (_self : TelemetryContext) (evt : ITelemetryItem) :
  applyOperatingSystemContxt _self (applyOperatingSystemContxt _self evt)
  = applyOperatingSystemContxt _self evt.
Proof.
  unfold applyOperatingSystemContxt.
  destruct (ext evt) as [e |] eqn:He; simpl; [| by rewrite He].
  by rewrite setValueExt_idem.
Qed.

Lemma applyApplicationContext_idem (_self : TelemetryContext) (evt : ITelemetryItem) :
  applyApplicationContext _self (applyApplicationContext _self evt)
  = applyApplicationContext _self evt.
Proof.
  unfold applyApplicationContext. destruct (application _self) as [a |]; [| done].
  apply getSetValue_tags_idem. overwrites.
Qed.

Lemma applyDeviceContext_idem (_self : TelemetryContext) (evt : ITelemetryItem) :
  applyDeviceContext _self (applyDeviceContext _self evt) = applyDeviceContext _self evt.
Proof.
  unfold applyDeviceContext. destruct (device _self) as [d |]; [| done].
  apply getSetValue_ext_idem. intros e. apply getSetValue_bucket_idem. overwrites.
Qed.

Lemma applyInternalContext_idem (_self : TelemetryContext) (evt : ITelemetryItem) :
  applyInternalContext _self (applyInternalContext _self evt)
  = applyInternalContext _self evt.
Proof.
  unfold applyInternalContext. destruct (internal _self) as [i |]; [| done].
  unfold getSetValue_tags at 2. cbn [baseType].
  apply getSetValue_tags_idem. destruct (_ || _); overwrites.
Qed.

Lemma applyLocationContext_idem (_self : TelemetryContext) (evt : ITelemetryItem) :
  applyLocationContext _self (applyLocationContext _self evt)
  = applyLocationContext _self evt.
Proof.
  unfold applyLocationContext. destruct (location _self) as [l |]; [| done].
  apply getSetValue_tags_idem. overwrites.
Qed.

Lemma applyOperationContext_idem (_self : TelemetryContext) (evt : ITelemetryItem) :
  applyOperationContext _self (applyOperationContext _self evt)
  = applyOperationContext _self evt.
Proof.
  unfold applyOperationContext. destruct (telemetryTrace _self) as [tr |]; [| done].
  apply getSetValue_ext_idem. intros e. apply getSetValue_bucket_idem. overwrites.
Qed.

Lemma applyWebContext_idem (_self : TelemetryContext) (evt : ITelemetryItem) :
  applyWebContext _self (applyWebContext _self evt) = applyWebContext _self evt.
Proof.
  unfold applyWebContext. destruct (web _self) as [w |]; [| done].
  apply getSetValue_ext_idem. intros e. apply setValueExt_idem.
Qed.

Lemma applyUserContext_idem (_self : TelemetryContext) (evt : ITelemetryItem) :
  applyUserContext _self (applyUserContext _self evt) = applyUserContext _self evt.
Proof.
  unfold applyUserContext. destruct (user _self) as [u |]; [| done].
  unfold getSetValue_ext, getSetValue_tags. simpl. f_equal.
  - f_equal. apply getSetValue_bucket_idem. overwrites.
  - do 2 f_equal.
    apply (Overwrites_idem (λ t, setValue t _ _ _)). overwrites.
Qed.

(** C8. Calling an apply operation twice on an item, with the providers
    unchanged, gives the same item as calling it once. *)
Theorem applyContext_idempotent (op : ApplyOp) (_self : TelemetryContext) (evt : ITelemetryItem) :
  applyContext op _self (applyContext op _self evt) = applyContext op _self evt.
Proof.
  destruct op; simpl;
    auto using applySessionContext_idem, applyOperatingSystemContxt_idem,
      applyApplicationContext_idem, applyDeviceContext_idem, applyInternalContext_idem,
      applyLocationContext_idem, applyOperationContext_idem, applyWebContext_idem,
      applyUserContext_idem.
Qed.

End Apply.

(** ** Buckets written by the apply operations *)

Section Buckets.

Implicit Types (t : gmap string Prim) (e : gmap string ExtValue).

Lemma extLookup_getSetValue_bucket e (field k : string) (defValue : gmap string Prim)
    (F : gmap string Prim → gmap string Prim) :
  k ≠ field → getSetValue_bucket e field defValue F !! k = e !! k.
Proof. intros Hk. unfold getSetValue_bucket. by rewrite lookup_insert_ne. Qed.

Lemma extLookup_setValueExt e (field k : string) (value : ExtValue) :
  k ≠ field → setValueExt e field value !! k = e !! k.
Proof.
  intros Hk. unfold setValueExt. case_bool_decide; [| done]. by rewrite lookup_insert_ne.
Qed.

Lemma extLookup_getSetValue_ext (evt : ITelemetryItem) (k : string)
    (G : gmap string ExtValue → gmap string ExtValue) :
  (∀ e, G e !! k = e !! k) →
  extLookup (getSetValue_ext evt G) k = extLookup evt k.
Proof.
  intros HG. unfold extLookup, getSetValue_ext. simpl. rewrite HG.
  by destruct (ext evt).
Qed.

Lemma not_namedBucket (k : string) :
  k ∉ namedBuckets →
  k ≠ Extensions.DeviceExt ∧ k ≠ Extensions.UserExt ∧ k ≠ Extensions.WebExt
  ∧ k ≠ Extensions.OSExt ∧ k ≠ Extensions.AppExt ∧ k ≠ Extensions.TraceExt.
Proof.
  unfold namedBuckets. rewrite !not_elem_of_cons. tauto.
Qed.

(** The apply operations write inside the six named buckets only. *)
Lemma applyContext_other_buckets (op : ApplyOp) (_self : TelemetryContext)
    (evt : ITelemetryItem) (k : string) :
  k ∉ namedBuckets → extLookup (applyContext op _self evt) k = extLookup evt k.
Proof.
  intros (Hd & Hu & Hw & Ho & Ha & Ht)%not_namedBucket.
  destruct op; simpl.
  - unfold applySessionContext. destruct (ext evt) as [e |] eqn:He; [| done].
    unfold extLookup. simpl. rewrite He. simpl.
    by apply extLookup_getSetValue_bucket.
  - unfold applyOperatingSystemContxt. destruct (ext evt) as [e |] eqn:He; [| done].
    unfold extLookup. simpl. rewrite He. simpl. by apply extLookup_setValueExt.
  - unfold applyApplicationContext. by destruct (application _self).
  - unfold applyDeviceContext. destruct (device _self); [| done].
    apply extLookup_getSetValue_ext. intros e. by apply extLookup_getSetValue_bucket.
  - unfold applyInternalContext. by destruct (internal _self).
  - unfold applyLocationContext. by destruct (location _self).
  - unfold applyOperationContext. destruct (telemetryTrace _self); [| done].
    apply extLookup_getSetValue_ext. intros e. by apply extLookup_getSetValue_bucket.
  - unfold applyWebContext. destruct (web _self); [| done].
    apply extLookup_getSetValue_ext. intros e. by apply extLookup_setValueExt.
  - unfold applyUserContext. destruct (user _self); [| done].
    rewrite extLookup_getSetValue_ext; [done |].
    intros e. by apply extLookup_getSetValue_bucket.
Qed.

Lemma applyAll_other_buckets (_self : TelemetryContext) (ops : list ApplyOp)
    (evt : ITelemetryItem) (k : string) :
  k ∉ namedBuckets → extLookup (applyAll _self ops evt) k = extLookup evt k.
Proof.
  intros Hk. unfold applyAll. revert evt.
  induction ops as [| op ops IH]; intros evt; simpl; [done |].
  rewrite IH. by apply applyContext_other_buckets.
Qed.

Lemma extLookup_cleanUp (_self : TelemetryContext) (evt : ITelemetryItem) (k : string) :
  extLookup (cleanUp _self evt) k =
    if decide (k ∈ namedBuckets ∧ extLookup evt k = Some (ExtObject ∅))
    then None else extLookup evt k.
Proof.
  unfold extLookup. destruct (ext evt) as [e |] eqn:He.
  - destruct (cleanUp_ext _self evt e He) as (e' & -> & H). simpl. apply H.
  - rewrite (cleanUp_without_ext _self evt He), He. simpl. by case_decide.
Qed.

(** C4, as the code has it.  When the item's [ext] holds no empty object
    outside the six named buckets, then after any sequence of apply
    operations followed by [cleanUp] no key of [ext] maps to an object with
    zero own keys: every extension object that is retained has an own
    key. *)
Theorem cleanUp_no_empty_bucket (_self : TelemetryContext) (ops : list ApplyOp)
    (evt : ITelemetryItem) :
  (∀ k, k ∉ namedBuckets → extLookup evt k ≠ Some (ExtObject ∅)) →
  ∀ k o, extLookup (cleanUp _self (applyAll _self ops evt)) k = Some (ExtObject o) →
         o ≠ ∅ ∧ ∃ field value, o !! field = Some value.
Proof.
  intros Hother k o Hk.
  assert (o ≠ ∅) as Ho.
  { intros ->. rewrite extLookup_cleanUp in Hk. case_decide as Hc; [done |].
    destruct (decide (k ∈ namedBuckets)) as [Hin | Hout]; [by destruct Hc |].
    rewrite applyAll_other_buckets in Hk by done. by apply (Hother k). }
  split; [done |]. by apply map_choose.
Qed.

Lemma cleanUp_no_empty_bucket_witness :
  ({[ "sesId" := PString "explicit" ]} : gmap string Prim) ≠ ∅
  ∧ ∃ field value,
      ({[ "sesId" := PString "explicit" ]} : gmap string Prim) !! field = Some value.
Proof.
  apply (cleanUp_no_empty_bucket sessionContext
           [OpDevice; OpSession; OpOperatingSystem] (mkItem (Some ∅) None None))
    with (k := Extensions.AppExt).
  - intros k _. unfold extLookup. simpl. by rewrite lookup_empty.
  - vm_compute. reflexivity.
Defined.

(** A trace bucket created by [applyOperationContext] starts with its two
    keys; when the operation identity holds no string, these two keys, both
    undefined, are all it has, and [cleanUp] keeps it. *)
Example cleanUp_keeps_default_trace_bucket :
  extLookup
    (cleanUp sessionContext
       (applyOperationContext
          {| application := None; device := None; location := None;
             telemetryTrace :=
               Some {| traceID := PUndefined; parentID := PUndefined;
                       trace_name := PUndefined |};
             user := None; internal := None; session := None; sessionManager := None;
             os := None; web := None |}
          emptyItem))
    Extensions.TraceExt
  = Some (ExtObject emptyTraceExt).
Proof. vm_compute. reflexivity. Qed.

Lemma sdk_not_named : "sdk" ∉ namedBuckets.
Proof.
  unfold namedBuckets. rewrite !not_elem_of_cons.
  repeat split; try discriminate. apply not_elem_of_nil.
Qed.

(** The claim as stated fails on an item that arrives with an empty object
    under a key [cleanUp] does not name. *)
Lemma cleanUp_keeps_foreign_empty_bucket :
  ¬ (∀ k, extLookup (cleanUp sessionContext
                       (applyAll sessionContext [OpSession; OpDevice] sdkItem)) k
          ≠ Some (ExtObject ∅)).
Proof.
  intros H. apply (H "sdk"). rewrite extLookup_cleanUp.
  rewrite decide_False.
  - rewrite applyAll_other_buckets; [done | apply sdk_not_named].
  - intros [Hin _]. by apply sdk_not_named.
Qed.

End Buckets.

(** ** Buckets are never replaced wholesale *)

Section Wholesale.

Implicit Types (t : gmap string Prim) (e : gmap string ExtValue).

Lemma Overwrites_keeps_keys (F : gmap string Prim → gmap string Prim) t (k : string) :
  Overwrites F → is_Some (t !! k) → is_Some (F t !! k).
Proof.
  intros [w Hw] Hk. rewrite Hw. apply lookup_union_is_Some. by right.
Qed.

Lemma getSetValue_bucket_keeps_keys e (field k : string) (defValue : gmap string Prim)
    (F : gmap string Prim → gmap string Prim) :
  is_Some (e !! k) → is_Some (getSetValue_bucket e field defValue F !! k).
Proof.
  intros Hk. unfold getSetValue_bucket. apply lookup_insert_is_Some'. by right.
Qed.

Lemma setValueExt_keeps_keys e (field k : string) (value : ExtValue) :
  is_Some (e !! k) → is_Some (setValueExt e field value !! k).
Proof.
  intros Hk. unfold setValueExt. case_bool_decide; [| done].
  apply lookup_insert_is_Some'. by right.
Qed.

Lemma getSetValue_ext_keeps_keys (evt : ITelemetryItem) (k : string)
    (G : gmap string ExtValue → gmap string ExtValue) :
  (∀ e, is_Some (e !! k) → is_Some (G e !! k)) →
  is_Some (extLookup evt k) → is_Some (extLookup (getSetValue_ext evt G) k).
Proof.
  unfold extLookup, getSetValue_ext. intros HG. simpl.
  destruct (ext evt) as [e |]; simpl; [apply HG | by intros [? ?]].
Qed.

Lemma getSetValue_tags_keeps_keys (evt : ITelemetryItem) (defIsArray : bool) (k : string)
    (F : gmap string Prim → gmap string Prim) :
  Overwrites F →
  is_Some (tagLookup evt k) → is_Some (tagLookup (getSetValue_tags evt defIsArray F) k).
Proof.
  unfold tagLookup, getSetValue_tags. intros HF. simpl.
  destruct (tags evt) as [t |]; simpl; [by apply Overwrites_keeps_keys | by intros [? ?]].
Qed.

(** No apply operation drops a key the item's [ext] already has: [ext] is
    written into, never replaced. *)
Lemma applyContext_keeps_ext_keys (op : ApplyOp) (_self : TelemetryContext)
    (evt : ITelemetryItem) (k : string) :
  is_Some (extLookup evt k) → is_Some (extLookup (applyContext op _self evt) k).
Proof.
  destruct op; simpl.
  - unfold applySessionContext, extLookup.
    destruct (ext evt) as [e |] eqn:He; simpl; [| by rewrite He].
    apply getSetValue_bucket_keeps_keys.
  - unfold applyOperatingSystemContxt, extLookup.
    destruct (ext evt) as [e |] eqn:He; simpl; [| by rewrite He].
    apply setValueExt_keeps_keys.
  - unfold applyApplicationContext. by destruct (application _self).
  - unfold applyDeviceContext. destruct (device _self); [| done].
    apply getSetValue_ext_keeps_keys. intros e. apply getSetValue_bucket_keeps_keys.
  - unfold applyInternalContext. by destruct (internal _self).
  - unfold applyLocationContext. by destruct (location _self).
  - unfold applyOperationContext. destruct (telemetryTrace _self); [| done].
    apply getSetValue_ext_keeps_keys. intros e. apply getSetValue_bucket_keeps_keys.
  - unfold applyWebContext. destruct (web _self); [| done].
    apply getSetValue_ext_keeps_keys. intros e. apply setValueExt_keeps_keys.
  - unfold applyUserContext. destruct (user _self); [| done]. intros Hk.
    apply getSetValue_ext_keeps_keys; [| done].
    intros e. apply getSetValue_bucket_keeps_keys.
Qed.

(** Nor a key the item's [tags] already has. *)
Lemma applyContext_keeps_tag_keys (op : ApplyOp) (_self : TelemetryContext)
    (evt : ITelemetryItem) (k : string) :
  is_Some (tagLookup evt k) → is_Some (tagLookup (applyContext op _self evt) k).
Proof.
  destruct op; simpl.
  - unfold applySessionContext. by destruct (ext evt).
  - unfold applyOperatingSystemContxt. by destruct (ext evt).
  - unfold applyApplicationContext. destruct (application _self); [| done].
    apply getSetValue_tags_keeps_keys. overwrites.
  - unfold applyDeviceContext. by destruct (device _self).
  - unfold applyInternalContext. destruct (internal _self); [| done].
    apply getSetValue_tags_keeps_keys. destruct (_ || _); overwrites.
  - unfold applyLocationContext. destruct (location _self); [| done].
    apply getSetValue_tags_keeps_keys. overwrites.
  - unfold applyOperationContext. by destruct (telemetryTrace _self).
  - unfold applyWebContext. by destruct (web _self).
  - unfold applyUserContext. destruct (user _self); [| done]. intros Hk.
    change (tagLookup (getSetValue_ext ?x _) k) with (tagLookup x k).
    apply getSetValue_tags_keeps_keys; [overwrites | done].
Qed.

(** The operations that reach [ext] through [getSetValue(evt, strExt)]
    create [ext] and their bucket on an item that has neither. *)
Lemma apply_creates_bucket (_self : TelemetryContext) (evt : ITelemetryItem) :
  (is_Some (device _self) →
   ∃ o, extLookup (applyDeviceContext _self evt) Extensions.DeviceExt = Some (ExtObject o))
  ∧ (is_Some (telemetryTrace _self) →
     ∃ o, extLookup (applyOperationContext _self evt) Extensions.TraceExt = Some (ExtObject o))
  ∧ (is_Some (user _self) →
     ∃ o, extLookup (applyUserContext _self evt) Extensions.UserExt = Some (ExtObject o))
  ∧ (∀ w, web _self = Some w →
     extLookup (applyWebContext _self evt) Extensions.WebExt = Some (ExtObject w)).
Proof.
  repeat split.
  - intros [d Hd]. unfold applyDeviceContext, extLookup, getSetValue_ext, getSetValue_bucket.
    rewrite Hd. simpl. rewrite lookup_insert_eq. eauto.
  - intros [d Hd]. unfold applyOperationContext, extLookup, getSetValue_ext, getSetValue_bucket.
    rewrite Hd. simpl. rewrite lookup_insert_eq. eauto.
  - intros [d Hd]. unfold applyUserContext, extLookup, getSetValue_ext, getSetValue_bucket.
    rewrite Hd. simpl. rewrite lookup_insert_eq. eauto.
  - intros w Hw. unfold applyWebContext, extLookup, getSetValue_ext, setValueExt, readExt.
    rewrite Hw. simpl. case_bool_decide as Hne; [by rewrite lookup_insert_eq |].
    destruct (default ∅ (ext evt) !! Extensions.WebExt); simpl in Hne; by subst.
Qed.

End Wholesale.

(** ** Items without [ext], hosts without a window *)

Section Guards.

(** C6, at the failing input.  The session provider holds the id
    ["explicit"], the item has no [ext]: [applySessionContext] (and, with an
    operating-system record set, [applyOperatingSystemContxt]) leaves the
    item without [ext], so no [ext.app.sesId] is written, whereas
    [applyDeviceContext] on the same item creates [ext] and its bucket. *)
Theorem applySessionContext_without_ext :
  getSessionId sessionContext = PString "explicit"
  ∧ applySessionContext sessionContext emptyItem = emptyItem
  ∧ applyOperatingSystemContxt sessionContext emptyItem = emptyItem
  ∧ extLookup
      (applyDeviceContext (newTelemetryContext browserHost noAmbient sampleConfig).1 emptyItem)
      Extensions.DeviceExt
    = Some (ExtObject (<["deviceClass" := PString "Browser"]> {[ "localId" := PString "browser" ]})).
Proof. repeat split; vm_compute; reflexivity. Qed.

(** With an [ext] in place the session id is written into [ext.app]. *)
Example applySessionContext_with_ext :
  extLookup (applySessionContext sessionContext (mkItem (Some ∅) None None)) Extensions.AppExt
  = Some (ExtObject {[ "sesId" := PString "explicit" ]}).
Proof. vm_compute. reflexivity. Qed.

Lemma newTelemetryContext_without_window (host : Host) (env : Ambient)
    (defaultConfig : ITelemetryConfig) :
  hasWindow host = false →
  newTelemetryContext host env defaultConfig =
    ({| application := Some (newApplication host);
        internal := Some (newInternal host defaultConfig);
        sessionManager := None; device := None; location := None; user := None;
        telemetryTrace := None; session := None; os := None; web := None |}, []).
Proof. intros H. unfold newTelemetryContext. by rewrite H. Qed.

(** C7, as the code has it.  Without a window the providers of the device,
    location, operation, user and web operations are unset and these
    operations leave the item unchanged; no session id is resolved, and
    [applySessionContext] writes no [sesId]: an item without [ext] is left
    unchanged, [tags] and every key of [ext] other than [app] are left as
    they were, an [app] bucket that exists keeps its content, and one that
    does not is created empty.  The operations are total functions: no path
    of theirs fails. *)
Theorem apply_without_window (host : Host) (env : Ambient) (defaultConfig : ITelemetryConfig)
    (evt : ITelemetryItem) :
  hasWindow host = false →
  let _self := (newTelemetryContext host env defaultConfig).1 in
  applyDeviceContext _self evt = evt
  ∧ applyLocationContext _self evt = evt
  ∧ applyOperationContext _self evt = evt
  ∧ applyWebContext _self evt = evt
  ∧ applyUserContext _self evt = evt
  ∧ getSessionId _self = PNull
  ∧ (ext evt = None → applySessionContext _self evt = evt)
  ∧ tags (applySessionContext _self evt) = tags evt
  ∧ baseType (applySessionContext _self evt) = baseType evt
  ∧ (∀ k, k ≠ Extensions.AppExt →
          extLookup (applySessionContext _self evt) k = extLookup evt k)
  ∧ (∀ o, extLookup evt Extensions.AppExt = Some (ExtObject o) →
          extLookup (applySessionContext _self evt) Extensions.AppExt = Some (ExtObject o))
  ∧ (extLookup (applySessionContext _self evt) Extensions.AppExt
       = extLookup evt Extensions.AppExt
     ∨ extLookup (applySessionContext _self evt) Extensions.AppExt = Some (ExtObject ∅)).
Proof.
  intros Hw. rewrite (newTelemetryContext_without_window _ _ _ Hw). simpl.
  repeat split; try done.
  - unfold applySessionContext. by intros ->.
  - unfold applySessionContext. by destruct (ext evt).
  - unfold applySessionContext. by destruct (ext evt).
  - intros k Hk. unfold applySessionContext, extLookup.
    destruct (ext evt) as [e |] eqn:He; simpl; [| by rewrite He].
    by apply extLookup_getSetValue_bucket.
  - intros o. unfold applySessionContext, extLookup.
    destruct (ext evt) as [e |] eqn:He; simpl; [| done].
    intros Ho. unfold getSetValue_bucket. rewrite Ho, lookup_insert_eq.
    by rewrite setValue_isString.
  - unfold applySessionContext, extLookup.
    destruct (ext evt) as [e |] eqn:He; simpl; [| left; by rewrite He].
    unfold getSetValue_bucket. rewrite lookup_insert_eq, setValue_isString. simpl.
    destruct (e !! Extensions.AppExt) as [[| o] |]; auto.
Qed.

Lemma apply_without_window_witness :
  applyDeviceContext (newTelemetryContext nodeHost metaAmbient sampleConfig).1 sdkItem = sdkItem
  ∧ getSessionId (newTelemetryContext nodeHost metaAmbient sampleConfig).1 = PNull.
Proof.
  pose proof (apply_without_window nodeHost metaAmbient sampleConfig sdkItem eq_refl) as H.
  split; [apply H | apply (proj1 (proj2 (proj2 (proj2 (proj2 (proj2 H))))))].
Defined.

(** The claim as stated fails: the internal provider is constructed in every
    environment, and its operation writes the SDK version into [tags]. *)
Lemma applyInternalContext_without_window_writes :
  hasWindow nodeHost = false
  ∧ applyContext OpInternal (newTelemetryContext nodeHost noAmbient sampleConfig).1 emptyItem
    ≠ emptyItem.
Proof.
  split; [reflexivity |]. intros H. apply (f_equal tags) in H. discriminate H.
Qed.

Example applyInternalContext_without_window_tags :
  tags (applyInternalContext (newTelemetryContext nodeHost noAmbient sampleConfig).1 emptyItem)
  = Some (mkTags false {[ CtxTagKeys.internalSdkVersion := PString "javascript:2.8.4" ]}).
Proof. vm_compute. reflexivity. Qed.

End Guards.

(** ** Trace-parent discovery *)

Section Discovery.

Context {A : Type} `{Named A}.

Lemma _getRequestIdValue_loop_Some (values : list A) (v : A) :
  _getRequestIdValue_loop values = Some v ↔ FirstRequestId values v.
Proof.
  unfold FirstRequestId. induction values as [| x values IH]; simpl.
  - split; [done |]. intros (before & after & Hv & _). by destruct before.
  - destruct (String.eqb_spec (nameOf x) "Request-Id") as [Hx | Hx].
    + rewrite Hx. simpl. split.
      * intros [= ->]. exists [], values. by repeat split.
      * intros ([| y before] & after & Hv & Hn & Hb).
        -- by injection Hv as ->.
        -- injection Hv as -> _. by apply Forall_cons in Hb as [? _].
    + rewrite andb_false_r, IH. split.
      * intros (before & after & -> & Hn & Hb).
        exists (x :: before), after. repeat split; [done |]. by constructor.
      * intros ([| y before] & after & Hv & Hn & Hb).
        -- injection Hv as -> _. done.
        -- injection Hv as -> ->. apply Forall_cons in Hb as [_ Hb]. eauto.
Qed.

Lemma _getRequestIdValue_loop_None (values : list A) :
  _getRequestIdValue_loop values = None
  ↔ Forall (λ x, nameOf x ≠ "Request-Id") values.
Proof.
  induction values as [| x values IH]; simpl; [by split |].
  rewrite Forall_cons.
  destruct (String.eqb_spec (nameOf x) "Request-Id") as [Hx | Hx].
  - rewrite Hx. simpl. split; [done | by intros [? _]].
  - rewrite andb_false_r, IH. tauto.
Qed.

End Discovery.

Section DiscoveryOrder.

Lemma discover_unfold (env : Ambient) :
  discover env =
    match findW3cTraceParent env with
    | Some tp => (Some tp, [ProbeW3cTraceParent])
    | None =>
        match documentToken env with
        | Some tp => (Some tp, [ProbeW3cTraceParent; ProbeDocument])
        | None =>
            (serverTimingToken env,
             [ProbeW3cTraceParent; ProbeDocument; ProbePerformance])
        end
    end.
Proof.
  unfold discover, _findRequestId, documentToken, serverTimingToken, bind, probe, ret.
  simpl. destruct (findW3cTraceParent env) as [tp |]; [done |]. simpl.
  destruct (getDocument env) as [metas |]; simpl.
  - destruct (_parseRequestId _) as [tp |]; [done |]. simpl.
    by destruct (getPerformance env).
  - by destruct (getPerformance env).
Qed.

(** C2, as the code has it.  Discovery consults the W3C carrier, then the
    document's metadata elements, then the server-timing list of the first
    navigation entry; the first source that yields a valid token wins and
    the later ones are not probed.  Within a source the elements are scanned
    in order up to the first one named ["Request-Id"]: that element alone is
    handed to the parser. *)
Theorem discover_order (env : Ambient) :
  (∀ tp, findW3cTraceParent env = Some tp →
         discover env = (Some tp, [ProbeW3cTraceParent]))
  ∧ (∀ tp, findW3cTraceParent env = None → documentToken env = Some tp →
           discover env = (Some tp, [ProbeW3cTraceParent; ProbeDocument]))
  ∧ (findW3cTraceParent env = None → documentToken env = None →
     discover env =
       (serverTimingToken env, [ProbeW3cTraceParent; ProbeDocument; ProbePerformance]))
  ∧ (∀ (metas : list IMetaElement) m,
       _getRequestIdValue (Some metas) = Some m ↔ FirstRequestId metas m)
  ∧ (∀ (timings : list IServerTiming) t,
       _getRequestIdValue (Some timings) = Some t ↔ FirstRequestId timings t).
Proof.
  rewrite discover_unfold. repeat split.
  - by intros tp ->.
  - by intros tp -> ->.
  - by intros -> ->.
  - by apply _getRequestIdValue_loop_Some.
  - by apply _getRequestIdValue_loop_Some.
  - by apply _getRequestIdValue_loop_Some.
  - by apply _getRequestIdValue_loop_Some.
Qed.

Lemma discover_order_witness :
  discover metaAmbient = (Some sampleTraceParent, [ProbeW3cTraceParent; ProbeDocument]).
Proof.
  apply (proj1 (proj2 (discover_order metaAmbient))); reflexivity.
Defined.

(** The claim as stated fails: the second metadata element named
    ["Request-Id"] carries a valid token, yet the document source is given
    up on after the first one. *)
Lemma discover_skips_later_candidates :
  ¬ ((∃ m, getDocument twoMetaAmbient = Some [ {| meta_name := "Request-Id";
                                                    meta_content := RidString "|not-a-token" |}; m ]
           ∧ nameOf m = "Request-Id"
           ∧ _parseRequestId (meta_content m) = Some sampleTraceParent) →
     is_Some (discover twoMetaAmbient).1).
Proof.
  intros H. destruct H as [tp Htp]; [| discriminate Htp].
  eexists. repeat split; reflexivity.
Qed.

Example discover_twoMetaAmbient :
  discover twoMetaAmbient = (None, [ProbeW3cTraceParent; ProbeDocument; ProbePerformance]).
Proof. reflexivity. Qed.

Example discover_noAmbient : (discover noAmbient).1 = None.
Proof. reflexivity. Qed.

End DiscoveryOrder.

(** ** Construction *)

Section Construction.

Local Arguments discover : simpl never.
Local Arguments seedParentId : simpl never.

Lemma discover_probes (env : Ambient) :
  NoDup (discover env).2 ∧ ProbeW3cTraceParent ∈ (discover env).2.
Proof.
  rewrite discover_unfold.
  destruct (findW3cTraceParent env); [| destruct (documentToken env)]; simpl;
    split; compute_done.
Qed.

Lemma seedParentId_unfold (env : Ambient) (defaultConfig : ITelemetryConfig) :
  seedParentId env defaultConfig =
    if disableTraceParent defaultConfig then (PUndefined, [])
    else (from_option (λ tp, PString (spanId tp)) PUndefined (discover env).1,
          (discover env).2).
Proof.
  unfold seedParentId, bind, ret.
  destruct (disableTraceParent defaultConfig); cbn [negb]; [done |].
  destruct (discover env) as [[tp |] probes]; cbn; by rewrite app_nil_r.
Qed.

Lemma newTelemetryContext_with_window (host : Host) (env : Ambient)
    (defaultConfig : ITelemetryConfig) :
  hasWindow host = true →
  newTelemetryContext host env defaultConfig =
    ({| application := Some (newApplication host);
        internal := Some (newInternal host defaultConfig);
        sessionManager := Some (new_SessionManager host defaultConfig);
        device := Some (newDevice host);
        location := Some (newLocation host);
        user := Some (newUser host defaultConfig);
        telemetryTrace :=
          Some (newTelemetryTrace host PUndefined
                  (seedParentId env defaultConfig).1 PUndefined);
        session := Some (newSession host);
        os := None; web := None |},
     (seedParentId env defaultConfig).2).
Proof.
  intros Hw. unfold newTelemetryContext, bind, ret. rewrite Hw. simpl.
  by rewrite app_nil_r.
Qed.

(** C3, as the code has it.  In a window environment the constructor creates
    the operation identity, whose own [traceID] is the one the identity
    provider generates.  When [disableTraceParent()] is false, discovery
    runs exactly once (the constructor's probes are those of one run, each
    source probed at most once and the W3C carrier once), and on success
    the discovered span id, and nothing else of the discovered token,
    becomes [parentID]; without a token [parentID] is undefined.  When
    [disableTraceParent()] is true, nothing is probed and [parentID] is
    undefined. *)
Theorem construction_seeds_parent (host : Host) (env : Ambient)
    (defaultConfig : ITelemetryConfig) :
  hasWindow host = true →
  ∃ trace,
    telemetryTrace (newTelemetryContext host env defaultConfig).1 = Some trace
    ∧ traceID trace = PString (generateW3CId host)
    ∧ (disableTraceParent defaultConfig = false →
       (newTelemetryContext host env defaultConfig).2 = (discover env).2
       ∧ NoDup (newTelemetryContext host env defaultConfig).2
       ∧ ProbeW3cTraceParent ∈ (newTelemetryContext host env defaultConfig).2
       ∧ parentID trace =
           match (discover env).1 with
           | Some tp => PString (spanId tp)
           | None => PUndefined
           end)
    ∧ (disableTraceParent defaultConfig = true →
       (newTelemetryContext host env defaultConfig).2 = [] ∧ parentID trace = PUndefined)
    ∧ (∀ env', spanId <$> (discover env').1 = spanId <$> (discover env).1 →
               (newTelemetryContext host env' defaultConfig).1
               = (newTelemetryContext host env defaultConfig).1).
Proof.
  intros Hw. rewrite (newTelemetryContext_with_window _ _ _ Hw).
  cbn [fst snd telemetryTrace]. eexists. split; [reflexivity |].
  rewrite seedParentId_unfold. split; [done |]. split; [| split].
  - intros ->. cbn [fst snd newTelemetryTrace parentID].
    destruct (discover_probes env) as [Hnd Hin]. repeat split; done.
  - by intros ->.
  - intros env' Heq. rewrite (newTelemetryContext_with_window _ _ _ Hw).
    cbn [fst]. rewrite seedParentId_unfold.
    destruct (disableTraceParent defaultConfig); [done |]. cbn [fst].
    destruct (discover env').1, (discover env).1; simpl in *; congruence.
Qed.

Lemma construction_seeds_parent_witness :
  ∃ trace,
    telemetryTrace (newTelemetryContext browserHost metaAmbient sampleConfig).1 = Some trace
    ∧ traceID trace = PString "0af7651916cd43dd8448eb211c80319c"
    ∧ parentID trace = PString "00f067aa0ba902b7".
Proof.
  destruct (construction_seeds_parent browserHost metaAmbient sampleConfig eq_refl)
    as (trace & Ht & Hid & Hoff & _).
  exists trace. repeat split; [exact Ht | exact Hid |].
  destruct (Hoff eq_refl) as (_ & _ & _ & ->). reflexivity.
Defined.

(** The claim as stated fails without a window: [disableTraceParent()] is
    false and the document carries a token, but the constructor probes
    nothing and creates no operation identity. *)
Lemma construction_without_window_skips_discovery :
  ¬ (disableTraceParent sampleConfig = false →
     ProbeW3cTraceParent ∈ (newTelemetryContext nodeHost metaAmbient sampleConfig).2).
Proof.
  intros H. specialize (H eq_refl). simpl in H. by apply not_elem_of_nil in H.
Qed.

Example construction_without_window :
  (newTelemetryContext nodeHost metaAmbient sampleConfig).2 = []
  ∧ telemetryTrace (newTelemetryContext nodeHost metaAmbient sampleConfig).1 = None
  ∧ (discover metaAmbient).1 = Some sampleTraceParent.
Proof. repeat split; reflexivity. Qed.

(** Two carriers that differ in the trace id only seed the same context. *)
Example construction_ignores_trace_id :
  (newTelemetryContext browserHost
     (mkAmbient (Some (createTraceParent "11111111111111111111111111111111"
                         "00f067aa0ba902b7")) None None) sampleConfig).1
  = (newTelemetryContext browserHost
       (mkAmbient (Some (createTraceParent "22222222222222222222222222222222"
                           "00f067aa0ba902b7")) None None) sampleConfig).1.
Proof. reflexivity. Qed.

End Construction.

(** * Further properties of the code *)

(** ** The parser on any input *)

Section ParserInvariants.

Local Open Scope nat_scope.
Local Arguments String.append !_ _ / : simpl nomatch.

Lemma _parseRequestId_string (s : string) :
  _parseRequestId (RidString s) = _parseRequestIdString s.
Proof.
  unfold _parseRequestId, _parseRequestIdString. simpl.
  by destruct (JsString.truthy s).
Qed.

Lemma _parseRequestId_cons (s : string) (l : list string) :
  _parseRequestId (RidArray (s :: l)) = _parseRequestIdString s.
Proof.
  unfold _parseRequestId. simpl.
  destruct (JsString.truthy s) eqn:Hs; [done |]. by destruct s.
Qed.

Lemma _parseRequestIdString_valid (s : string) (tp : ITraceParent) :
  _parseRequestIdString s = Some tp →
  isValidTraceId (traceId tp) = true ∧ isValidSpanId (spanId tp) = true
  ∧ String.length (traceId tp) = 32 ∧ String.length (spanId tp) = 16.
Proof.
  intros H. apply _parseRequestIdString_Some in H as [_ Ht Hs Htz Hsz].
  repeat split.
  - by apply isValidTraceId_spec.
  - by apply isValidSpanId_spec.
  - apply Ht.
  - apply Hs.
Qed.

Lemma _parseRequestId_valid_any (value : RequestIdValue) (tp : ITraceParent) :
  _parseRequestId value = Some tp →
  isValidTraceId (traceId tp) = true ∧ isValidSpanId (spanId tp) = true
  ∧ String.length (traceId tp) = 32 ∧ String.length (spanId tp) = 16.
Proof.
  destruct value as [| s | [| s l]]; try done.
  - rewrite _parseRequestId_string. apply _parseRequestIdString_valid.
  - rewrite _parseRequestId_cons. apply _parseRequestIdString_valid.
Qed.

(** X1. Whatever it is handed (undefined, a string or a sequence), the parser
    never returns a partially valid trace parent: both ids of a result pass
    their validators, the trace id with 32 characters and the span id with
    16. *)
Theorem parseRequestId_result_valid (value : RequestIdValue) (tp : ITraceParent) :
  _parseRequestId value = Some tp →
  isValidTraceId (traceId tp) = true ∧ isValidSpanId (spanId tp) = true
  ∧ String.length (traceId tp) = 32 ∧ String.length (spanId tp) = 16.
Proof. apply _parseRequestId_valid_any. Qed.

Lemma parseRequestId_result_valid_witness :
  isValidTraceId "4bf92f3577b34da6a3ce929d0e0e4736" = true
  ∧ isValidSpanId "00f067aa0ba902b7" = true
  ∧ String.length "4bf92f3577b34da6a3ce929d0e0e4736" = 32
  ∧ String.length "00f067aa0ba902b7" = 16.
Proof.
  apply (parseRequestId_result_valid (RidArray [sampleRequestId; "ignored"]) sampleTraceParent).
  reflexivity.
Defined.

Lemma trimStart_ws_app (pre x : string) :
  JsString.allChars JsString.isWhitespace pre = true →
  JsString.trimStart (pre +:+ x) = JsString.trimStart x.
Proof.
  induction pre as [| c pre IH]; simpl; [done |].
  intros [Hc Hp]%andb_true_iff. rewrite Hc. auto.
Qed.

Lemma trimStart_all_ws (post : string) :
  JsString.allChars JsString.isWhitespace post = true → JsString.trimStart post = "".
Proof.
  induction post as [| c post IH]; simpl; [done |].
  intros [Hc Hp]%andb_true_iff. rewrite Hc. auto.
Qed.

Lemma trimEnd_all_ws (post : string) :
  JsString.allChars JsString.isWhitespace post = true → JsString.trimEnd post = "".
Proof.
  induction post as [| c post IH]; simpl; [done |].
  intros [Hc Hp]%andb_true_iff. by rewrite (IH Hp), Hc.
Qed.

Lemma trimEnd_app_ws (x post : string) :
  JsString.allChars JsString.isWhitespace post = true →
  JsString.trimEnd (x +:+ post) = JsString.trimEnd x.
Proof.
  intros Hp. induction x as [| c x IH]; simpl.
  - by apply trimEnd_all_ws.
  - by rewrite IH.
Qed.

Lemma trimStart_app (x post : string) :
  JsString.trimStart (x +:+ post) =
    if JsString.truthy (JsString.trimStart x)
    then JsString.trimStart x +:+ post
    else JsString.trimStart post.
Proof.
  induction x as [| c x IH]; simpl; [done |].
  by destruct (JsString.isWhitespace c).
Qed.

Lemma trim_padded (pre s post : string) :
  JsString.allChars JsString.isWhitespace pre = true →
  JsString.allChars JsString.isWhitespace post = true →
  JsString.trimEnd (JsString.trimStart (pre +:+ s +:+ post))
  = JsString.trimEnd (JsString.trimStart s).
Proof.
  intros Hpre Hpost. rewrite (trimStart_ws_app _ _ Hpre), trimStart_app.
  destruct (JsString.trimStart s) as [| c r] eqn:Hs; simpl JsString.truthy; cbv iota.
  - by rewrite (trimStart_all_ws _ Hpost).
  - by apply trimEnd_app_ws.
Qed.

Lemma truthy_padded (pre s post : string) :
  JsString.truthy s = true → JsString.truthy (pre +:+ s +:+ post) = true.
Proof. destruct pre, s; simpl; done. Qed.

(** X2. White space around a token does not change what the parser
    returns: a string padded on both sides with white-space characters
    parses as the string itself. *)
Theorem parseRequestId_padding (pre s post : string) :
  JsString.allChars JsString.isWhitespace pre = true →
  JsString.allChars JsString.isWhitespace post = true →
  _parseRequestId (RidString (pre +:+ s +:+ post)) = _parseRequestId (RidString s).
Proof.
  intros Hpre Hpost. rewrite !_parseRequestId_string. unfold _parseRequestIdString.
  destruct (JsString.truthy s) eqn:Hs.
  - rewrite (truthy_padded pre s post Hs). unfold strTrim.
    rewrite (truthy_padded pre s post Hs), Hs. by rewrite (trim_padded _ _ _ Hpre Hpost).
  - destruct s; [| done].
    destruct (JsString.truthy (pre +:+ "" +:+ post)) eqn:Hy; [| done].
    unfold strTrim. rewrite Hy, (trim_padded _ _ _ Hpre Hpost). reflexivity.
Qed.

Lemma parseRequestId_padding_witness :
  _parseRequestId (RidString ("  " +:+ sampleRequestId +:+ " "))
  = _parseRequestId (RidString sampleRequestId).
Proof. apply parseRequestId_padding; reflexivity. Defined.

End ParserInvariants.

(** ** Discovery and construction on any environment *)

Section DiscoveryInvariants.

Local Arguments discover : simpl never.
Local Arguments seedParentId : simpl never.

Lemma documentToken_unnamed (env : Ambient) :
  (∀ metas, getDocument env = Some metas →
            Forall (λ m, nameOf m ≠ "Request-Id") metas) →
  documentToken env = None.
Proof.
  intros H. unfold documentToken. destruct (getDocument env) as [metas |]; [| done].
  simpl. by rewrite (proj2 (_getRequestIdValue_loop_None metas) (H metas eq_refl)).
Qed.

Lemma serverTimingToken_unnamed (env : Ambient) :
  (∀ first entries timings,
     getPerformance env = Some (Some (first :: entries)) →
     serverTiming first = Some timings →
     Forall (λ t, nameOf t ≠ "Request-Id") timings) →
  serverTimingToken env = None.
Proof.
  intros H. unfold serverTimingToken.
  destruct (getPerformance env) as [[[| first entries] |] |]; try done. simpl.
  destruct (serverTiming first) as [timings |] eqn:Ht; [| done]. simpl.
  by rewrite (proj2 (_getRequestIdValue_loop_None timings) (H _ _ _ eq_refl Ht)).
Qed.

(** X3. Discovery yields none, after probing all three sources, whenever the
    W3C carrier yields nothing and no element named ["Request-Id"] is found
    where the code looks: among the document's metadata elements and in the
    server-timing list of the first navigation entry.  A missing document, a
    missing performance facility, an empty entry list and an entry without
    server timing all count; entries after the first are never looked at. *)
Theorem discover_nothing_named (env : Ambient) :
  findW3cTraceParent env = None →
  (∀ metas, getDocument env = Some metas →
            Forall (λ m, nameOf m ≠ "Request-Id") metas) →
  (∀ first entries timings,
     getPerformance env = Some (Some (first :: entries)) →
     serverTiming first = Some timings →
     Forall (λ t, nameOf t ≠ "Request-Id") timings) →
  discover env = (None, [ProbeW3cTraceParent; ProbeDocument; ProbePerformance]).
Proof.
  intros Hw Hd Hp. rewrite discover_unfold, Hw.
  by rewrite (documentToken_unnamed env Hd), (serverTimingToken_unnamed env Hp).
Qed.

Lemma discover_nothing_named_witness :
  discover plainAmbient = (None, [ProbeW3cTraceParent; ProbeDocument; ProbePerformance]).
Proof.
  apply discover_nothing_named.
  - reflexivity.
  - intros metas [= <-]. repeat constructor; discriminate.
  - intros first entries timings [= <- <-] [= <-]. repeat constructor; discriminate.
Defined.

Lemma documentToken_valid (env : Ambient) (tp : ITraceParent) :
  documentToken env = Some tp →
  isValidSpanId (spanId tp) = true ∧ String.length (spanId tp) = 16.
Proof.
  unfold documentToken. destruct (getDocument env); [| done]. simpl.
  intros H. by apply _parseRequestId_valid_any in H as (_ & ? & _ & ?).
Qed.

Lemma serverTimingToken_valid (env : Ambient) (tp : ITraceParent) :
  serverTimingToken env = Some tp →
  isValidSpanId (spanId tp) = true ∧ String.length (spanId tp) = 16.
Proof.
  unfold serverTimingToken. destruct (getPerformance env); [| done]. simpl.
  intros H. by apply _parseRequestId_valid_any in H as (_ & ? & _ & ?).
Qed.

(** X4. In a window environment where the W3C carrier yields nothing, the
    operation identity the constructor creates has a [parentID] that is
    either undefined or a string that passes the span-id validator (16
    characters): a malformed Request-Id never reaches [parentID]. *)
Theorem construction_parentID_valid (host : Host) (env : Ambient)
    (defaultConfig : ITelemetryConfig) :
  hasWindow host = true →
  findW3cTraceParent env = None →
  ∃ trace,
    telemetryTrace (newTelemetryContext host env defaultConfig).1 = Some trace
    ∧ (parentID trace = PUndefined
       ∨ ∃ sid, parentID trace = PString sid
                ∧ isValidSpanId sid = true ∧ String.length sid = 16).
Proof.
  intros Hw Hc. rewrite (newTelemetryContext_with_window _ _ _ Hw).
  cbn [fst telemetryTrace]. eexists. split; [reflexivity |].
  rewrite seedParentId_unfold. cbn [newTelemetryTrace parentID].
  destruct (disableTraceParent defaultConfig); [by left |]. cbn [fst].
  rewrite discover_unfold, Hc.
  destruct (documentToken env) as [tp |] eqn:Hd.
  - right. exists (spanId tp). split; [done |]. by apply (documentToken_valid env).
  - destruct (serverTimingToken env) as [tp |] eqn:Hs; [| by left].
    right. exists (spanId tp). split; [done |]. by apply (serverTimingToken_valid env).
Qed.

Lemma construction_parentID_valid_witness :
  ∃ trace,
    telemetryTrace (newTelemetryContext browserHost twoMetaAmbient sampleConfig).1 = Some trace
    ∧ (parentID trace = PUndefined
       ∨ ∃ sid, parentID trace = PString sid
                ∧ isValidSpanId sid = true ∧ String.length sid = 16).
Proof. apply construction_parentID_valid; reflexivity. Defined.

End DiscoveryInvariants.

(** ** What the apply operations write, and where *)

Section WritesStringsFacts.

Implicit Types (t : gmap string Prim) (F : gmap string Prim → gmap string Prim).

Lemma WritesStrings_id : WritesStrings (λ t, t).
Proof. intros t k. by left. Qed.

Lemma WritesStrings_setValue F (field : string) (value : Prim) :
  WritesStrings F → WritesStrings (λ t, setValue (F t) field value (Some isString)).
Proof.
  intros HF t k. rewrite setValue_isString.
  destruct value as [| | s | n | b]; simpl; try apply HF.
  destruct (decide (field = k)) as [-> | Hk].
  - right. exists s. by rewrite lookup_insert_eq.
  - rewrite lookup_insert_ne by done. apply HF.
Qed.

End WritesStringsFacts.

Ltac writes_strings :=
  repeat first [ apply WritesStrings_id | apply WritesStrings_setValue ].

Section Frames.

Implicit Types (t : gmap string Prim) (e : gmap string ExtValue).
Implicit Types (F : gmap string Prim → gmap string Prim).

(** The bucket [getSetValue] hands to the caller: the object under [b], or
    the default when there is none. *)
Lemma extField_default (evt : ITelemetryItem) (b f : string) :
  extField evt b f =
    match default ∅ (ext evt) !! b with
    | Some (ExtObject o) => o !! f
    | _ => None
    end.
Proof. unfold extField, extLookup. by destruct (ext evt). Qed.

Lemma tagLookup_default (evt : ITelemetryItem) (k : string) :
  tagLookup evt k = from_option tagsProps ∅ (tags evt) !! k.
Proof. unfold tagLookup. by destruct (tags evt). Qed.

Lemma tagLookup_getSetValue_tags (evt : ITelemetryItem) (defIsArray : bool) F (k : string) :
  tagLookup (getSetValue_tags evt defIsArray F) k
  = F (from_option tagsProps ∅ (tags evt)) !! k.
Proof. unfold tagLookup, getSetValue_tags. simpl. by destruct (tags evt). Qed.

Lemma extField_getSetValue_bucket (evt : ITelemetryItem) (b f : string)
    (defValue : gmap string Prim) F :
  extField (getSetValue_ext evt (λ e, getSetValue_bucket e b defValue F)) b f
  = F (match default ∅ (ext evt) !! b with
       | Some (ExtObject o) => o
       | _ => defValue
       end) !! f.
Proof.
  unfold extField, extLookup, getSetValue_ext, getSetValue_bucket. simpl.
  rewrite lookup_insert_eq. by destruct (default ∅ (ext evt) !! b) as [[] |].
Qed.

Lemma extField_other_bucket (evt : ITelemetryItem) (b b' f : string)
    (G : gmap string ExtValue → gmap string ExtValue) :
  (∀ e, G e !! b = e !! b) →
  extField (getSetValue_ext evt G) b f = extField evt b f.
Proof.
  intros HG. unfold extField. by rewrite (extLookup_getSetValue_ext evt b G HG).
Qed.

(** X5. Every apply operation stays in its own part of the item: none
    changes [baseType]; the application, internal and location operations
    leave [ext] as it is; the session, operating-system, device, operation
    and web operations leave [tags] as it is.  (The user operation writes
    both.) *)
Theorem applyContext_frame (op : ApplyOp) (_self : TelemetryContext) (evt : ITelemetryItem) :
  baseType (applyContext op _self evt) = baseType evt
  ∧ match op with
    | OpApplication | OpInternal | OpLocation =>
        ext (applyContext op _self evt) = ext evt
    | OpSession | OpOperatingSystem | OpDevice | OpOperation | OpWeb =>
        tags (applyContext op _self evt) = tags evt
    | OpUser => True
    end.
Proof.
  destruct op; simpl.
  - unfold applySessionContext. by destruct (ext evt).
  - unfold applyOperatingSystemContxt. by destruct (ext evt).
  - unfold applyApplicationContext. by destruct (application _self).
  - unfold applyDeviceContext. by destruct (device _self).
  - unfold applyInternalContext. by destruct (internal _self).
  - unfold applyLocationContext. by destruct (location _self).
  - unfold applyOperationContext. by destruct (telemetryTrace _self).
  - unfold applyWebContext. by destruct (web _self).
  - unfold applyUserContext. by destruct (user _self).
Qed.

Lemma getSetValue_tags_writes (evt : ITelemetryItem) (defIsArray : bool) F (k : string) :
  WritesStrings F →
  tagLookup (getSetValue_tags evt defIsArray F) k = tagLookup evt k
  ∨ ∃ s, tagLookup (getSetValue_tags evt defIsArray F) k = Some (PString s).
Proof.
  intros HF. rewrite tagLookup_getSetValue_tags, tagLookup_default. apply HF.
Qed.

(** X6. The apply operations write strings only into [tags]: after any of
    them, a tag reads as it did before or holds a string.  A provider field
    that is absent, null or of another type is never copied. *)
Theorem applyContext_tags_strings (op : ApplyOp) (_self : TelemetryContext)
    (evt : ITelemetryItem) (k : string) :
  tagLookup (applyContext op _self evt) k = tagLookup evt k
  ∨ ∃ s, tagLookup (applyContext op _self evt) k = Some (PString s).
Proof.
  destruct op; simpl.
  - left. unfold applySessionContext. by destruct (ext evt).
  - left. unfold applyOperatingSystemContxt. by destruct (ext evt).
  - unfold applyApplicationContext. destruct (application _self); [| by left].
    apply getSetValue_tags_writes. writes_strings.
  - left. unfold applyDeviceContext. by destruct (device _self).
  - unfold applyInternalContext. destruct (internal _self); [| by left].
    apply getSetValue_tags_writes. destruct (_ || _); writes_strings.
  - unfold applyLocationContext. destruct (location _self); [| by left].
    apply getSetValue_tags_writes. writes_strings.
  - left. unfold applyOperationContext. by destruct (telemetryTrace _self).
  - left. unfold applyWebContext. by destruct (web _self).
  - unfold applyUserContext. destruct (user _self); [| by left].
    change (tagLookup (getSetValue_ext ?x _) k) with (tagLookup x k).
    apply getSetValue_tags_writes. writes_strings.
Qed.

Lemma getSetValue_bucket_writes (evt : ITelemetryItem) (field b f : string) F :
  WritesStrings F →
  extField (getSetValue_ext evt (λ e, getSetValue_bucket e field ∅ F)) b f = extField evt b f
  ∨ ∃ s, extField (getSetValue_ext evt (λ e, getSetValue_bucket e field ∅ F)) b f
         = Some (PString s).
Proof.
  intros HF. destruct (decide (b = field)) as [-> | Hb].
  - rewrite extField_getSetValue_bucket, extField_default.
    destruct (default ∅ (ext evt) !! field) as [[| o] |]; apply HF.
  - left. apply extField_other_bucket; [done |].
    intros e. by apply extLookup_getSetValue_bucket.
Qed.

(** X7. Outside the trace, os and web buckets (the first starts from a
    default with two undefined fields, the other two are stored whole), the
    apply operations write strings only into [ext]: after any of them a
    bucket field reads as it did before or holds a string. *)
Theorem applyContext_ext_strings (op : ApplyOp) (_self : TelemetryContext)
    (evt : ITelemetryItem) (b f : string) :
  b ≠ Extensions.TraceExt → b ≠ Extensions.OSExt → b ≠ Extensions.WebExt →
  extField (applyContext op _self evt) b f = extField evt b f
  ∨ ∃ s, extField (applyContext op _self evt) b f = Some (PString s).
Proof.
  intros Ht Ho Hw. destruct op; simpl.
  - unfold applySessionContext. destruct (ext evt) as [e |] eqn:He; [| by left].
    pose proof (getSetValue_bucket_writes evt Extensions.AppExt b f
                  (λ app, setValue app "sesId" (getSessionId _self) (Some isString))) as H.
    unfold getSetValue_ext in H. rewrite He in H. apply H. writes_strings.
  - left. unfold applyOperatingSystemContxt. destruct (ext evt) as [e |] eqn:He; [| done].
    unfold extField, extLookup. simpl. rewrite He. simpl.
    by rewrite extLookup_setValueExt.
  - left. unfold applyApplicationContext. by destruct (application _self).
  - unfold applyDeviceContext. destruct (device _self); [| by left].
    apply getSetValue_bucket_writes. writes_strings.
  - left. unfold applyInternalContext. by destruct (internal _self).
  - left. unfold applyLocationContext. by destruct (location _self).
  - left. unfold applyOperationContext. destruct (telemetryTrace _self); [| done].
    apply extField_other_bucket; [done |]. intros e. by apply extLookup_getSetValue_bucket.
  - left. unfold applyWebContext. destruct (web _self); [| done].
    apply extField_other_bucket; [done |]. intros e. by apply extLookup_setValueExt.
  - unfold applyUserContext. destruct (user _self); [| by left].
    pose proof (getSetValue_bucket_writes evt Extensions.UserExt b f
                  (λ extUser,
                     setValue (setValue extUser "id" (user_id i) (Some isString))
                       "authId" (user_authenticatedId i) (Some isString))) as H.
    apply H. writes_strings.
Qed.

Lemma applyContext_ext_strings_witness :
  extField (applyContext OpDevice (newTelemetryContext browserHost noAmbient sampleConfig).1
              sdkItem) Extensions.DeviceExt "ip"
  = extField sdkItem Extensions.DeviceExt "ip"
  ∨ ∃ s, extField (applyContext OpDevice
                     (newTelemetryContext browserHost noAmbient sampleConfig).1 sdkItem)
           Extensions.DeviceExt "ip" = Some (PString s).
Proof. apply applyContext_ext_strings; discriminate. Defined.

End Frames.

(** ** Field mappings *)

Section FieldMappings.

Implicit Types (t : gmap string Prim) (e : gmap string ExtValue).

Ltac field_writes :=
  rewrite !setValue_isString;
  repeat match goal with
         | |- context [isString ?v] => destruct (isString v)
         end;
  rewrite ?lookup_insert_eq, ?lookup_insert_ne by done;
  rewrite ?lookup_insert_eq, ?lookup_insert_ne by done;
  rewrite ?lookup_empty;
  try done.

(** X8. [applyDeviceContext], with a device provider, maps id, ip, model and
    deviceClass to [ext.device.localId], [.ip], [.model] and [.deviceClass]:
    each field holds the provider's value when that is a string and is left
    as it was (absent, on a fresh bucket) when it is not; no other field of
    the bucket changes. *)
Theorem applyDeviceContext_fields (_self : TelemetryContext) (d : IDevice)
    (evt : ITelemetryItem) :
  device _self = Some d →
  let after := applyDeviceContext _self evt in
  let field (name : string) (value : Prim) :=
    extField after Extensions.DeviceExt name =
      if isString value then Some value else extField evt Extensions.DeviceExt name in
  field "localId" (dev_id d) ∧ field "ip" (dev_ip d) ∧ field "model" (dev_model d)
  ∧ field "deviceClass" (dev_deviceClass d)
  ∧ ∀ f, f ∉ ["localId"; "ip"; "model"; "deviceClass"] →
         extField after Extensions.DeviceExt f = extField evt Extensions.DeviceExt f.
Proof.
  intros Hd. unfold applyDeviceContext. rewrite Hd. cbv zeta.
  repeat split;
    [.. | intros f Hf; rewrite !not_elem_of_cons in Hf; destruct Hf as (? & ? & ? & ? & _)];
    rewrite extField_getSetValue_bucket, extField_default;
    destruct (default ∅ (ext evt) !! Extensions.DeviceExt) as [[| o] |]; field_writes.
Qed.

Lemma applyDeviceContext_fields_witness :
  extField (applyDeviceContext (newTelemetryContext browserHost noAmbient sampleConfig).1
              emptyItem) Extensions.DeviceExt "localId" = Some (PString "browser")
  ∧ extField (applyDeviceContext (newTelemetryContext browserHost noAmbient sampleConfig).1
                emptyItem) Extensions.DeviceExt "ip" = None.
Proof.
  pose proof (applyDeviceContext_fields
                (newTelemetryContext browserHost noAmbient sampleConfig).1
                (newDevice browserHost) emptyItem eq_refl) as (H1 & H2 & _).
  split; [exact H1 | exact H2].
Defined.

(** X9. [applySessionContext] on an item that has an [ext]: [ext.app.sesId]
    holds the resolved session id when there is one; when there is none
    (null) a [sesId] the item already carries is left in place, not
    cleared.  No other field of [ext.app] changes. *)
Theorem applySessionContext_sesId (_self : TelemetryContext) (evt : ITelemetryItem)
    (e : gmap string ExtValue) :
  ext evt = Some e →
  extField (applySessionContext _self evt) Extensions.AppExt "sesId" =
    (if isString (getSessionId _self) then Some (getSessionId _self)
     else extField evt Extensions.AppExt "sesId")
  ∧ ∀ f, f ≠ "sesId" →
         extField (applySessionContext _self evt) Extensions.AppExt f
         = extField evt Extensions.AppExt f.
Proof.
  intros He.
  assert (applySessionContext _self evt =
          getSetValue_ext evt (λ e, getSetValue_bucket e Extensions.AppExt ∅ (λ app,
            setValue app "sesId" (getSessionId _self) (Some isString)))) as ->.
  { unfold applySessionContext, getSetValue_ext. by rewrite He. }
  rewrite extField_getSetValue_bucket, !extField_default.
  split.
  - destruct (default ∅ (ext evt) !! Extensions.AppExt) as [[| o] |]; field_writes.
  - intros f Hf. rewrite extField_getSetValue_bucket, extField_default.
    destruct (default ∅ (ext evt) !! Extensions.AppExt) as [[| o] |]; field_writes.
Qed.

Lemma applySessionContext_sesId_witness :
  extField (applySessionContext sessionContext sdkItem) Extensions.AppExt "sesId"
  = Some (PString "explicit").
Proof.
  apply (applySessionContext_sesId sessionContext sdkItem {[ "sdk" := ExtObject ∅ ]} eq_refl).
Defined.

(** X10. [applyInternalContext], with an internal provider, always maps the
    agent and SDK versions, and maps the snippet version and the SDK source
    only when the item's base type is the internal-log-message type or the
    page-view type; for any other base type these two tags are left as they
    were. *)
Theorem applyInternalContext_tags (_self : TelemetryContext) (i : IInternal)
    (evt : ITelemetryItem) :
  internal _self = Some i →
  let after := applyInternalContext _self evt in
  let special :=
    bool_decide (baseType evt = Some _InternalLogMessage_dataType
                 ∨ baseType evt = Some PageView_dataType) in
  let tag (key : string) (value : Prim) (written : bool) :=
    tagLookup after key =
      if written && isString value then Some value else tagLookup evt key in
  tag CtxTagKeys.internalAgentVersion (agentVersion i) true
  ∧ tag CtxTagKeys.internalSdkVersion (sdkVersion i) true
  ∧ tag CtxTagKeys.internalSnippet (snippetVer i) special
  ∧ tag CtxTagKeys.internalSdkSrc (sdkSrc i) special.
Proof.
  intros Hi. unfold applyInternalContext. rewrite Hi. cbv zeta.
  rewrite !tagLookup_getSetValue_tags, !tagLookup_default.
  rewrite <- bool_decide_or.
  destruct (bool_decide _); cbn [andb]; repeat split; field_writes.
Qed.

Lemma applyInternalContext_tags_witness :
  tagLookup (applyInternalContext (newTelemetryContext nodeHost noAmbient sampleConfig).1
               emptyItem) CtxTagKeys.internalSdkVersion
  = Some (PString "javascript:2.8.4").
Proof.
  pose proof (applyInternalContext_tags
                (newTelemetryContext nodeHost noAmbient sampleConfig).1
                (newInternal nodeHost sampleConfig) emptyItem eq_refl) as (_ & H & _).
  exact H.
Defined.

End FieldMappings.

(** ** Composition of the operations *)

Section Composition.

Implicit Types (t : gmap string Prim) (e : gmap string ExtValue).
Implicit Types (F : gmap string Prim → gmap string Prim).

Lemma item_eq (a b : ITelemetryItem) :
  ext a = ext b → tags a = tags b → baseType a = baseType b → a = b.
Proof. destruct a, b; simpl; congruence. Qed.

Lemma getSetValue_bucket_commute e (f1 f2 : string) (d1 d2 : gmap string Prim) F1 F2 :
  f1 ≠ f2 →
  getSetValue_bucket (getSetValue_bucket e f2 d2 F2) f1 d1 F1
  = getSetValue_bucket (getSetValue_bucket e f1 d1 F1) f2 d2 F2.
Proof.
  intros Hf. unfold getSetValue_bucket.
  rewrite !lookup_insert_ne by done. by apply insert_insert_ne.
Qed.

Lemma getSetValue_bucket_setValueExt e (f1 f2 : string) (d1 : gmap string Prim) F1
    (value : ExtValue) :
  f1 ≠ f2 →
  getSetValue_bucket (setValueExt e f2 value) f1 d1 F1
  = setValueExt (getSetValue_bucket e f1 d1 F1) f2 value.
Proof.
  intros Hf. unfold getSetValue_bucket, setValueExt, readExt.
  rewrite (lookup_insert_ne _ f1 f2) by done.
  case_bool_decide; [| done].
  rewrite lookup_insert_ne by done. by apply insert_insert_ne.
Qed.

(** X11. The device, operation, web and user operations write into four
    different buckets and commute: applying two of them to an item gives the
    same item in either order. *)
Theorem applyContext_ext_commute (op1 op2 : ApplyOp) (_self : TelemetryContext)
    (evt : ITelemetryItem) :
  op1 ∈ [OpDevice; OpOperation; OpWeb; OpUser] →
  op2 ∈ [OpDevice; OpOperation; OpWeb; OpUser] →
  applyContext op1 _self (applyContext op2 _self evt)
  = applyContext op2 _self (applyContext op1 _self evt).
Proof.
  intros H1 H2.
  rewrite !elem_of_cons in H1. rewrite !elem_of_cons in H2.
  destruct H1 as [-> | [-> | [-> | [-> | H1]]]]; [.. | by apply elem_of_nil in H1];
  destruct H2 as [-> | [-> | [-> | [-> | H2]]]]; try (by apply elem_of_nil in H2);
    try reflexivity;
    cbn [applyContext];
    unfold applyDeviceContext, applyOperationContext, applyWebContext, applyUserContext;
    destruct (device _self), (telemetryTrace _self), (web _self), (user _self);
    try reflexivity;
    unfold getSetValue_ext, getSetValue_tags; cbn [ext tags baseType];
    cbn [default from_option option_map];
    (apply item_eq; cbn [ext tags baseType]; [f_equal | reflexivity | reflexivity]);
    first [ by apply getSetValue_bucket_commute
          | by apply getSetValue_bucket_setValueExt
          | by (symmetry; apply getSetValue_bucket_setValueExt) ].
Qed.

Lemma applyContext_ext_commute_witness :
  applyContext OpDevice sessionContext (applyContext OpWeb sessionContext sdkItem)
  = applyContext OpWeb sessionContext (applyContext OpDevice sessionContext sdkItem).
Proof.
  apply applyContext_ext_commute; rewrite !elem_of_cons; auto.
Defined.

End Composition.

(** ** Cleanup after the operations *)

Section CleanUpLifecycle.

Implicit Types (t : gmap string Prim) (e : gmap string ExtValue).

Lemma cleanUp_tags (_self : TelemetryContext) (evt : ITelemetryItem) :
  tags (cleanUp _self evt) = tags evt ∧ baseType (cleanUp _self evt) = baseType evt.
Proof. rewrite cleanUp_fold. by destruct (ext evt). Qed.

(** Two items that agree on every key of [ext] and on the rest are cleaned
    up to the same item. *)
Lemma cleanUp_ext_eq (_self : TelemetryContext) (a b : ITelemetryItem)
    (ea eb : gmap string ExtValue) :
  ext a = Some ea → ext b = Some eb → tags a = tags b → baseType a = baseType b →
  (∀ k, (if decide (k ∈ namedBuckets ∧ ea !! k = Some (ExtObject ∅)) then None else ea !! k)
        = (if decide (k ∈ namedBuckets ∧ eb !! k = Some (ExtObject ∅)) then None else eb !! k)) →
  cleanUp _self a = cleanUp _self b.
Proof.
  intros Ha Hb Ht Hbt Hk.
  destruct (cleanUp_ext _self a ea Ha) as (ea' & Hea & Hla).
  destruct (cleanUp_ext _self b eb Hb) as (eb' & Heb & Hlb).
  destruct (cleanUp_tags _self a) as [Hta Hba].
  destruct (cleanUp_tags _self b) as [Htb Hbb].
  apply item_eq; [| congruence | congruence].
  rewrite Hea, Heb. f_equal. apply map_eq. intros k. by rewrite Hla, Hlb.
Qed.

(** X12. [cleanUp] is idempotent: a second cleanup finds nothing left to
    remove. *)
Theorem cleanUp_idempotent (_self : TelemetryContext) (evt : ITelemetryItem) :
  cleanUp _self (cleanUp _self evt) = cleanUp _self evt.
Proof.
  destruct (ext evt) as [e |] eqn:He.
  - destruct (cleanUp_ext _self evt e He) as (e' & He' & Hl).
    destruct (cleanUp_ext _self (cleanUp _self evt) e' He') as (e'' & He'' & Hl').
    destruct (cleanUp_tags _self (cleanUp _self evt)) as [Ht Hb].
    apply item_eq; [| done | done].
    rewrite He'', He'. f_equal. apply map_eq. intros k. rewrite Hl'.
    case_decide as Hc; [| done]. destruct Hc as [Hin Hv].
    rewrite Hl in Hv. case_decide as Hc'; [done |]. by destruct Hc'.
  - by rewrite !(cleanUp_without_ext _self evt He).
Qed.

Lemma applyDeviceContext_no_strings (_self : TelemetryContext) (d : IDevice)
    (evt : ITelemetryItem) :
  device _self = Some d →
  isString (dev_id d) = false → isString (dev_ip d) = false →
  isString (dev_model d) = false → isString (dev_deviceClass d) = false →
  applyDeviceContext _self evt =
    getSetValue_ext evt (λ e, getSetValue_bucket e Extensions.DeviceExt ∅ (λ t, t)).
Proof.
  intros Hd H1 H2 H3 H4. unfold applyDeviceContext. rewrite Hd.
  unfold getSetValue_ext, getSetValue_bucket. do 4 f_equal.
  by rewrite !setValue_isString, H1, H2, H3, H4.
Qed.

(** X13. The placeholder left by an operation that found nothing to write is
    removed again: when the device provider holds no string and the item has
    an [ext] without a device bucket, [applyDeviceContext] followed by
    [cleanUp] gives the same item as [cleanUp] alone. *)
Theorem cleanUp_removes_device_placeholder (_self : TelemetryContext) (d : IDevice)
    (evt : ITelemetryItem) (e : gmap string ExtValue) :
  device _self = Some d →
  isString (dev_id d) = false → isString (dev_ip d) = false →
  isString (dev_model d) = false → isString (dev_deviceClass d) = false →
  ext evt = Some e → e !! Extensions.DeviceExt = None →
  cleanUp _self (applyDeviceContext _self evt) = cleanUp _self evt.
Proof.
  intros Hd H1 H2 H3 H4 He Hn.
  rewrite (applyDeviceContext_no_strings _self d evt Hd H1 H2 H3 H4).
  unfold getSetValue_ext, getSetValue_bucket. rewrite He. cbn [default from_option id].
  rewrite Hn.
  eapply cleanUp_ext_eq; [reflexivity | exact He | reflexivity | reflexivity |].
  intros k.
  destruct (decide (k = Extensions.DeviceExt)) as [-> | Hk].
  - rewrite lookup_insert_eq, Hn. rewrite decide_True; [by case_decide |].
    split; [| done]. unfold namedBuckets. rewrite elem_of_cons. by left.
  - by rewrite lookup_insert_ne.
Qed.

Lemma cleanUp_removes_device_placeholder_witness :
  cleanUp blankDeviceContext (applyDeviceContext blankDeviceContext sdkItem)
  = cleanUp blankDeviceContext sdkItem.
Proof.
  eapply (cleanUp_removes_device_placeholder blankDeviceContext _ sdkItem
            {[ "sdk" := ExtObject ∅ ]}); reflexivity.
Defined.

(** X14. [cleanUp] never removes [ext] itself: on an item without [ext], an
    [applyDeviceContext] that finds nothing to write creates [ext] and its
    bucket, and after [cleanUp] the item is left with an empty [ext]. *)
Theorem cleanUp_leaves_empty_ext (_self : TelemetryContext) (d : IDevice)
    (evt : ITelemetryItem) :
  device _self = Some d →
  isString (dev_id d) = false → isString (dev_ip d) = false →
  isString (dev_model d) = false → isString (dev_deviceClass d) = false →
  ext evt = None →
  cleanUp _self (applyDeviceContext _self evt) = mkItem (Some ∅) (tags evt) (baseType evt).
Proof.
  intros Hd H1 H2 H3 H4 He.
  rewrite (applyDeviceContext_no_strings _self d evt Hd H1 H2 H3 H4).
  unfold getSetValue_ext, getSetValue_bucket. rewrite He. cbn [default from_option id].
  rewrite lookup_empty.
  set (evt' := mkItem _ _ _).
  destruct (cleanUp_ext _self evt' _ eq_refl) as (e' & He' & Hl).
  destruct (cleanUp_tags _self evt') as [Ht Hb].
  apply item_eq; cbn [ext tags baseType]; [| done | done].
  rewrite He'. f_equal. apply map_eq. intros k. rewrite Hl, lookup_empty.
  case_decide as Hc; [done |].
  destruct (decide (k = Extensions.DeviceExt)) as [-> | Hk].
  - destruct Hc. split; [| by rewrite lookup_insert_eq].
    unfold namedBuckets. rewrite elem_of_cons. by left.
  - by rewrite lookup_insert_ne, lookup_empty.
Qed.

Lemma cleanUp_leaves_empty_ext_witness :
  cleanUp blankDeviceContext (applyDeviceContext blankDeviceContext emptyItem)
  = mkItem (Some ∅) None None.
Proof.
  eapply (cleanUp_leaves_empty_ext blankDeviceContext _ emptyItem); reflexivity.
Defined.

(** X15. The trace bucket created by [applyOperationContext] starts from a
    default with the keys [traceID] and [parentID]; it therefore survives
    [cleanUp] whatever the operation identity holds, with both keys
    present. *)
Theorem cleanUp_keeps_created_trace (_self : TelemetryContext) (tr : ITelemetryTrace)
    (evt : ITelemetryItem) :
  telemetryTrace _self = Some tr →
  extLookup evt Extensions.TraceExt = None
  ∨ extLookup evt Extensions.TraceExt = Some ExtUndefined →
  ∃ o, extLookup (cleanUp _self (applyOperationContext _self evt)) Extensions.TraceExt
       = Some (ExtObject o)
       ∧ is_Some (o !! "traceID") ∧ is_Some (o !! "parentID").
Proof.
  intros Ht Habsent. unfold applyOperationContext. rewrite Ht.
  pose (F := λ extTrace : gmap string Prim,
          setValue (setValue (setValue extTrace "traceID" (traceID tr) (Some isString))
                      "name" (trace_name tr) (Some isString))
            "parentID" (parentID tr) (Some isString)).
  change (getSetValue_ext evt _)
    with (getSetValue_ext evt (λ e, getSetValue_bucket e Extensions.TraceExt emptyTraceExt F)).
  assert (Overwrites F) as HF by (subst F; overwrites).
  assert (extLookup (getSetValue_ext evt (λ e, getSetValue_bucket e Extensions.TraceExt
                                                 emptyTraceExt F)) Extensions.TraceExt
          = Some (ExtObject (F emptyTraceExt))) as Hl.
  { unfold extLookup, getSetValue_ext, getSetValue_bucket. cbn [ext mbind option_bind].
    rewrite lookup_insert_eq. unfold extLookup in Habsent.
    destruct (ext evt) as [e |]; cbn [default from_option id mbind option_bind] in *.
    - by destruct Habsent as [-> | ->].
    - by rewrite lookup_empty. }
  assert (is_Some (F emptyTraceExt !! "traceID")) as H1.
  { apply Overwrites_keeps_keys; [done |]. by eexists. }
  assert (is_Some (F emptyTraceExt !! "parentID")) as H2.
  { apply Overwrites_keeps_keys; [done |]. by eexists. }
  exists (F emptyTraceExt). split; [| done].
  rewrite extLookup_cleanUp, Hl. rewrite decide_False; [done |].
  intros [_ [= Hempty]]. rewrite Hempty, lookup_empty in H1. by destruct H1.
Qed.

Lemma cleanUp_keeps_created_trace_witness :
  ∃ o, extLookup
         (cleanUp (newTelemetryContext browserHost noAmbient sampleConfig).1
            (applyOperationContext (newTelemetryContext browserHost noAmbient sampleConfig).1
               emptyItem)) Extensions.TraceExt
       = Some (ExtObject o)
       ∧ is_Some (o !! "traceID") ∧ is_Some (o !! "parentID").
Proof.
  eapply cleanUp_keeps_created_trace; [reflexivity | by left].
Defined.

End CleanUpLifecycle.

(** ** Order of the operations, containers and whole-object writes *)

Section OrderAndContainers.

Implicit Types (e : gmap string ExtValue).



(** X17. Whether the session id is stamped depends on the order of the
    calls when the item arrives without [ext]: after [applyDeviceContext]
    (which creates [ext]) [applySessionContext] writes [ext.app.sesId], while
    in the other order the session write is lost and no [sesId] is there. *)
Theorem applySessionContext_order (_self : TelemetryContext) (d : IDevice)
    (evt : ITelemetryItem) (sid : string) :
  ext evt = None →
  device _self = Some d →
  getSessionId _self = PString sid →
  extField (applySessionContext _self (applyDeviceContext _self evt))
    Extensions.AppExt "sesId" = Some (PString sid)
  ∧ extField (applyDeviceContext _self (applySessionContext _self evt))
      Extensions.AppExt "sesId" = None.
Proof.
  intros He Hd Hs. split.
  - unfold applyDeviceContext. rewrite Hd.
    unfold applySessionContext, getSetValue_ext. cbn [ext].
    unfold extField, extLookup. cbn [ext mbind option_bind].
    unfold getSetValue_bucket at 1. rewrite lookup_insert_eq.
    rewrite Hs, setValue_isString. cbn [isString]. by rewrite lookup_insert_eq.
  - unfold applySessionContext. rewrite He.
    unfold applyDeviceContext. rewrite Hd.
    rewrite extField_other_bucket.
    + unfold extField, extLookup. by rewrite He.
    + done.
    + intros e. by apply extLookup_getSetValue_bucket.
Qed.

Lemma applySessionContext_order_witness :
  extField (applySessionContext
              (newTelemetryContext browserHost noAmbient sampleConfig).1
              (applyDeviceContext
                 (newTelemetryContext browserHost noAmbient sampleConfig).1 emptyItem))
    Extensions.AppExt "sesId" = Some (PString "auto-session")
  ∧ extField (applyDeviceContext
                (newTelemetryContext browserHost noAmbient sampleConfig).1
                (applySessionContext
                   (newTelemetryContext browserHost noAmbient sampleConfig).1 emptyItem))
      Extensions.AppExt "sesId" = None.
Proof.
  apply (applySessionContext_order _ (newDevice browserHost)); reflexivity.
Defined.

(** X18. The web and operating-system records are stored whole: after
    [applyWebContext] with a web record, [ext.web] is that record, whatever
    [ext.web] held before (nothing of it is merged), and [ext] is created
    when absent; after [applyOperatingSystemContxt] with an os record on an
    item that has an [ext], [ext.os] is that record.  Every other key of
    [ext] is left as it was. *)
Theorem apply_whole_object (_self : TelemetryContext) (evt : ITelemetryItem) :
  (∀ w, web _self = Some w →
        extLookup (applyWebContext _self evt) Extensions.WebExt = Some (ExtObject w)
        ∧ ∀ k, k ≠ Extensions.WebExt →
               extLookup (applyWebContext _self evt) k = extLookup evt k)
  ∧ (∀ o, os _self = Some o → is_Some (ext evt) →
          extLookup (applyOperatingSystemContxt _self evt) Extensions.OSExt
          = Some (ExtObject o)
          ∧ ∀ k, k ≠ Extensions.OSExt →
                 extLookup (applyOperatingSystemContxt _self evt) k = extLookup evt k).
Proof.
  split.
  - intros w Hw. split.
    + by apply apply_creates_bucket.
    + intros k Hk. unfold applyWebContext. rewrite Hw.
      apply extLookup_getSetValue_ext. intros e. by apply extLookup_setValueExt.
  - intros o Ho [e He]. unfold applyOperatingSystemContxt, extLookup.
    rewrite He, Ho. cbn [ext mbind option_bind from_option]. split.
    + unfold setValueExt, readExt. case_bool_decide as Hne; [by rewrite lookup_insert_eq |].
      destruct (e !! Extensions.OSExt); simpl in Hne; by subst.
    + intros k Hk. by apply extLookup_setValueExt.
Qed.

Lemma apply_whole_object_witness :
  extLookup (applyOperatingSystemContxt sessionContext
               (mkItem (Some {[ "os" := ExtObject {[ "ver" := PString "10" ]} ]}) None None))
    Extensions.OSExt
  = Some (ExtObject {[ "name" := PString "Windows" ]}).
Proof.
  apply (proj2 (apply_whole_object sessionContext
                  (mkItem (Some {[ "os" := ExtObject {[ "ver" := PString "10" ]} ]})
                     None None))).
  - reflexivity.
  - by eexists.
Defined.

End OrderAndContainers.

(** ** From construction to the stamped item *)

Section EndToEnd.

Local Arguments discover : simpl never.
Local Arguments seedParentId : simpl never.

Lemma extLookup_default (evt : ITelemetryItem) (b : string) :
  default ∅ (ext evt) !! b = extLookup evt b.
Proof. unfold extLookup. by destruct (ext evt). Qed.

(** X19. An item without a trace bucket, stamped by [applyOperationContext]
    of a context constructed in a window environment, carries in
    [ext.trace] the trace id the identity provider generated and, under the
    own key [parentID], the span id discovery found, or undefined when
    discovery is disabled or found nothing. *)
Theorem applyOperationContext_after_construction (host : Host) (env : Ambient)
    (defaultConfig : ITelemetryConfig) (evt : ITelemetryItem) :
  hasWindow host = true →
  extLookup evt Extensions.TraceExt = None →
  let after :=
    applyOperationContext (newTelemetryContext host env defaultConfig).1 evt in
  extField after Extensions.TraceExt "traceID" = Some (PString (generateW3CId host))
  ∧ extField after Extensions.TraceExt "parentID" =
      Some (if disableTraceParent defaultConfig then PUndefined
            else match (discover env).1 with
                 | Some tp => PString (spanId tp)
                 | None => PUndefined
                 end).
Proof.
  intros Hw Hn. rewrite (newTelemetryContext_with_window _ _ _ Hw).
  cbn [fst]. unfold applyOperationContext. cbn [telemetryTrace]. cbv zeta.
  rewrite !extField_getSetValue_bucket, extLookup_default, Hn.
  rewrite seedParentId_unfold. rewrite !setValue_isString.
  cbn [newTelemetryTrace traceID parentID trace_name primTruthy isString].
  unfold emptyTraceExt. split.
  - destruct (disableTraceParent defaultConfig); cbn [fst isString];
      [| destruct (discover env).1; cbn [from_option isString]];
      destruct (isString (operationName host));
      rewrite ?lookup_insert_eq, ?lookup_insert_ne by done;
      by rewrite ?lookup_insert_eq, ?lookup_insert_ne by done.
  - destruct (disableTraceParent defaultConfig); cbn [fst isString];
      [| destruct (discover env).1; cbn [from_option isString]];
      destruct (isString (operationName host));
      rewrite ?lookup_insert_eq, ?lookup_insert_ne by done;
      by rewrite ?lookup_insert_eq, ?lookup_insert_ne by done.
Qed.

Lemma applyOperationContext_after_construction_witness :
  extField (applyOperationContext
              (newTelemetryContext browserHost metaAmbient sampleConfig).1 sdkItem)
    Extensions.TraceExt "traceID" = Some (PString "0af7651916cd43dd8448eb211c80319c")
  ∧ extField (applyOperationContext
                (newTelemetryContext browserHost metaAmbient sampleConfig).1 sdkItem)
      Extensions.TraceExt "parentID" = Some (PString "00f067aa0ba902b7").
Proof.
  apply (applyOperationContext_after_construction browserHost metaAmbient sampleConfig sdkItem);
    reflexivity.
Defined.

End EndToEnd.
